(** * apollo-proxy-cache: the caching protocol of [createProxyCacheMiddleware]

    A shallow embedding of [src/createProxyCacheMiddleware.ts]: the three
    stages the factory returns ([directiveMiddleware], [hashMiddleware] and
    the [onProxyRes] hook of [proxyMiddleware]) as programs of a small
    state-and-exception monad over the request, the cache store and a log
    of observable effects.

    The stages are written against the interfaces they use: the cache
    ([Cache]) and the imported functions ([Imports]).  The general results
    hold for every cache and every implementation of the imports; a
    JavaScript runtime, a small query front end and two cache back ends
    are given to run the stages on concrete requests. *)

From Stdlib Require Import ZArith List String Ascii Bool DecimalString.
From stdpp Require Import gmap strings.
Import ListNotations.
Local Open Scope string_scope.
Local Open Scope Z_scope.
Set Warnings "-register-all".

(** ** JavaScript values *)

(** The values a parsed JSON body, a stored cache entry or a decoded
    upstream reply can take.  [JUndefined] is what reading a missing
    property gives.  Numbers are the integers. *)
Inductive JSValue : Type :=
| JUndefined
| JNull
| JBool (b : bool)
| JNum (n : Z)
| JStr (s : string)
| JArr (items : list JSValue)
| JObj (fields : list (string * JSValue)).

(** ToBoolean: what [if (v)], [!v], [a && b] and [a || b] test. *)
Definition truthy (v : JSValue) : bool :=
  match v with
  | JUndefined | JNull => false
  | JBool b => b
  | JNum n => negb (n =? 0)
  | JStr s => negb (String.eqb s "")
  | JArr _ | JObj _ => true
  end.

(** Truthiness of a string-valued slot that is [undefined] until written
    ([req._bodyHash], [cacheBypassHeader], [req.header(name)]). *)
Definition truthy_str (o : option string) : bool :=
  match o with
  | Some s => negb (String.eqb s "")
  | None => false
  end.

Definition is_Some_b {A : Type} (o : option A) : bool :=
  match o with
  | Some _ => true
  | None => false
  end.

Fixpoint assoc {A : Type} (k : string) (kvs : list (string * A)) : option A :=
  match kvs with
  | [] => None
  | (k', v) :: rest => if String.eqb k k' then Some v else assoc k rest
  end.

(** [{ ...o, k: v }] on own properties: an existing key keeps its place. *)
Fixpoint assign {A : Type} (k : string) (v : A) (kvs : list (string * A))
  : list (string * A) :=
  match kvs with
  | [] => [(k, v)]
  | (k', v') :: rest =>
      if String.eqb k k' then (k', v) :: rest else (k', v') :: assign k v rest
  end.

(** Exceptions: what a [throw] or a rejected promise carries. *)
Inductive Exn : Type :=
| TypeError (msg : string)
| GraphQLError (msg : string)
| SyntaxError (msg : string)
| StoreError (msg : string)
| OtherError (msg : string).

(** The completion of a call: a value, or an exception on its way up. *)
Inductive Completion (A : Type) : Type :=
| Returned (a : A)
| Thrown (e : Exn).
Arguments Returned {A} a.
Arguments Thrown {A} e.

(** [v.name] for the property names the middleware reads ([query],
    [variables], [errors], [data], [response]): none of them exists on a
    primitive or on an array, and reading any property of [undefined] or
    [null] throws. *)
Definition prop (v : JSValue) (name : string) : Completion JSValue :=
  match v with
  | JUndefined => Thrown (TypeError ("Cannot read properties of undefined (reading '" ++ name ++ "')"))
  | JNull => Thrown (TypeError ("Cannot read properties of null (reading '" ++ name ++ "')"))
  | JObj kvs => Returned (match assoc name kvs with Some x => x | None => JUndefined end)
  | _ => Returned JUndefined
  end.

(** The own enumerable properties [{ ...v }] copies.  The middleware only
    spreads a body whose [query] is truthy, which is an object
    ([truthy_query_is_object] below). *)
Definition spread (v : JSValue) : list (string * JSValue) :=
  match v with
  | JObj kvs => kvs
  | _ => []
  end.

(** The two tests of [!response.errors && response.data]. *)
Definition error_envelope (response : JSValue) : bool :=
  match prop response "errors" with
  | Returned errors => truthy errors
  | Thrown _ => false
  end.

Definition payload (response : JSValue) : option JSValue :=
  match prop response "data" with
  | Returned data => if truthy data then Some data else None
  | Thrown _ => None
  end.

(** ** Requests, responses and observable effects *)

(** The express request, with the two slots the middleware attaches
    ([RequestWithCache]); both are [undefined] on a fresh request.
    [headers] holds the lower-cased header names node delivers. *)
Record Request : Type := mkRequest {
  method : string;
  headers : list (string * string);
  body : JSValue;
  _hasCache : option (string * Z);
  _bodyHash : option string
}.

Definition lower_ascii (c : ascii) : ascii :=
  let n := nat_of_ascii c in
  if (Nat.leb 65 n && Nat.leb n 90)%bool then ascii_of_nat (n + 32) else c.

Fixpoint toLowerCase (s : string) : string :=
  match s with
  | EmptyString => EmptyString
  | String c rest => String (lower_ascii c) (toLowerCase rest)
  end.

(** [req.header(name)]: the name is lower-cased before the lookup. *)
Definition header (req : Request) (name : string) : option string :=
  assoc (toLowerCase name) (headers req).

(** How a request-time stage ends: it calls [next()], or it answers the
    caller itself with [response.json(payload)]. *)
Inductive Outcome : Type :=
| Next
| Responded (payload : JSValue).

(** What a stage does that the outside can see, in order. *)
Inductive Event : Type :=
| ConsoleWarn (msg : string)
| CacheGet (key : string)
| CacheSet (key : string) (value : JSValue) (timeout : Z)
| CacheHget (key : string)
| CacheHset (key field value : string) (timeout : Z)
| ErrorOnGet (e : Exn)
| ErrorOnSet (e : Exn)
| SetHeader (name value : string)
| UserOnProxyRes.

(** The writes to the store among the effects, and the keys used. *)
Definition is_write (ev : Event) : bool :=
  match ev with
  | CacheSet _ _ _ | CacheHset _ _ _ _ => true
  | _ => false
  end.

Definition writes (log : list Event) : list Event := List.filter is_write log.

Definition is_cache (ev : Event) : bool :=
  match ev with
  | CacheGet _ | CacheSet _ _ _ | CacheHget _ | CacheHset _ _ _ _ => true
  | _ => false
  end.

Fixpoint scalar_keys (log : list Event) : list string :=
  match log with
  | CacheGet k :: rest | CacheSet k _ _ :: rest => k :: scalar_keys rest
  | _ :: rest => scalar_keys rest
  | [] => []
  end.

Fixpoint hash_keys (log : list Event) : list string :=
  match log with
  | CacheHget k :: rest | CacheHset k _ _ _ :: rest => k :: hash_keys rest
  | _ :: rest => hash_keys rest
  | [] => []
  end.

(** What the caller's own [onProxyRes] hook adds, when there is one. *)
Definition hook_log (supplied : bool) : list Event :=
  if supplied then [UserOnProxyRes] else [].

Definition CACHE_HEADER : string := "X-Proxy-Cached".
Definition CACHE_HASH_HEADER : string := "X-Proxy-Hash".

Definition skip_warning : string :=
  "[skip] proxy-cache-middleware, request.body is not populated. Please add "
  ++ String (ascii_of_nat 34) "body-parser"
  ++ String (ascii_of_nat 34) " middleware (or similar).".

(** ** The cache interface ([caches/types]) *)

(** [Cache<string, any>] over a store state [St].  Every operation is a
    promise: it settles with a value or rejects, and may change the store. *)
Class Cache (St : Type) : Type := {
  delete : string -> St -> Completion bool * St;
  get : string -> St -> Completion JSValue * St;
  hget : string -> St -> Completion JSValue * St;
  set : string -> JSValue -> Z -> St -> Completion unit * St;
  hset : string -> string -> string -> Z -> St -> Completion unit * St
}.

(** ** What the module imports

    [graphql], [apollo-utilities], [./utils], [./utils-browser-only],
    [crypto] and the [JSON] object are taken as they are used: by their
    signatures.  A call that can throw returns a [Completion]. *)
Class Imports : Type := {
  Document : Type;
  ProxyRes : Type;
  CacheKeyModifier : Type;
  DIRECTIVE : string;
  parse : JSValue -> Completion Document;
  print : Document -> string;
  hasDirectives : list string -> Document -> bool;
  removeCacheDirective : Document -> Completion Document;
  calculateArguments :
    Document -> JSValue -> option CacheKeyModifier -> Request -> Completion (string * Z);
  decode : ProxyRes -> Completion string;
  JSON_parse : JSValue -> Completion JSValue;
  JSON_stringify : JSValue -> string;
  md5_hex : string -> string
}.

(** ** The monad of an async handler *)

Record World (St : Type) : Type := mkWorld {
  w_req : Request;
  w_store : St;
  w_log : list Event
}.
Arguments mkWorld {St} _ _ _.
Arguments w_req {St} _.
Arguments w_store {St} _.
Arguments w_log {St} _.

Definition Task (St A : Type) : Type := World St -> Completion A * World St.

Section Monad.
Context {St : Type}.

Definition ret {A} (a : A) : Task St A := fun w => (Returned a, w).

Definition throw {A} (e : Exn) : Task St A := fun w => (Thrown e, w).

Definition bind {A B} (m : Task St A) (k : A -> Task St B) : Task St B :=
  fun w =>
    match m w with
    | (Returned a, w') => k a w'
    | (Thrown e, w') => (Thrown e, w')
    end.

(** [try { m } catch (e) { h e }] *)
Definition try_catch {A} (m : Task St A) (h : Exn -> Task St A) : Task St A :=
  fun w =>
    match m w with
    | (Returned a, w') => (Returned a, w')
    | (Thrown e, w') => h e w'
    end.

(** The completion of a synchronous call. *)
Definition lift {A} (c : Completion A) : Task St A := fun w => (c, w).

Definition emit (ev : Event) : Task St unit :=
  fun w => (Returned tt, mkWorld (w_req w) (w_store w) (w_log w ++ [ev])).

Definition the_req : Task St Request := fun w => (Returned (w_req w), w).

Definition put_req (r : Request) : Task St unit :=
  fun w => (Returned tt, mkWorld r (w_store w) (w_log w)).

(** [await op]: the store operation runs on the shared store. *)
Definition await {A} (op : St -> Completion A * St) : Task St A :=
  fun w => let '(c, s') := op (w_store w) in (c, mkWorld (w_req w) s' (w_log w)).

End Monad.

Declare Scope task_scope.
Delimit Scope task_scope with task.
Notation "x <- m ;; k" := (bind m (fun x => k))
  (at level 100, m at next level, right associativity) : task_scope.
Notation "m ;; k" := (bind m (fun _ => k))
  (at level 100, right associativity) : task_scope.

(** Assignments to the request object. *)
Definition with_hasCache (r : Request) (h : string * Z) : Request :=
  mkRequest (method r) (headers r) (body r) (Some h) (_bodyHash r).

Definition with_body (r : Request) (b : JSValue) : Request :=
  mkRequest (method r) (headers r) b (_hasCache r) (_bodyHash r).

Definition with_bodyHash (r : Request) (h : string) : Request :=
  mkRequest (method r) (headers r) (body r) (_hasCache r) (Some h).

(** ** What a stage may do to the log and to the request's slots

    [w] is the world a stage starts in, [w'] the one it leaves. *)

Definition one_key (keys : list string) : Prop :=
  forall k k', In k keys -> In k' keys -> k = k'.

Definition directive_step {St : Type} (w w' : World St) : Prop :=
  exists evs : list Event,
    w_log w' = (w_log w ++ evs)%list /\
    hash_keys evs = [] /\
    _bodyHash (w_req w') = _bodyHash (w_req w) /\
    ((scalar_keys evs = [] /\ _hasCache (w_req w') = _hasCache (w_req w))
     \/ exists id, scalar_keys evs = [id] /\
                   (_hasCache (w_req w') = _hasCache (w_req w)
                    \/ exists timeout, _hasCache (w_req w') = Some (id, timeout))).

Definition hash_step {St : Type} (w w' : World St) : Prop :=
  exists evs : list Event,
    w_log w' = (w_log w ++ evs)%list /\
    scalar_keys evs = [] /\
    _hasCache (w_req w') = _hasCache (w_req w) /\
    ((hash_keys evs = [] /\ _bodyHash (w_req w') = _bodyHash (w_req w))
     \/ exists h, _bodyHash (w_req w') = Some h /\ Forall (eq h) (hash_keys evs)).

Definition interceptor_step {St : Type} (w w' : World St) : Prop :=
  exists evs : list Event,
    w_log w' = (w_log w ++ evs)%list /\
    w_req w' = w_req w /\
    (forall k, In k (scalar_keys evs) ->
               exists timeout, _hasCache (w_req w) = Some (k, timeout)) /\
    (forall k, In k (hash_keys evs) -> _bodyHash (w_req w) = Some k).

(** How a request was answered: by one of the request-time stages, or
    by the upstream's reply. *)
Inductive Served (Reply : Type) : Type :=
| FromCache (payload : JSValue)
| FromUpstream (reply : Reply).
Arguments FromCache {Reply} payload.
Arguments FromUpstream {Reply} reply.

(** ** [createProxyCacheMiddleware] *)

Section createProxyCacheMiddleware.
Context {St : Type} {imports : Imports}.
(** The factory's arguments. *)
Context (queryCache : Cache St)
        (cacheKeyModifier : option CacheKeyModifier)
        (cacheBypassHeader : option string)
        (globalTimeout : Z).
(** Whether [proxyConfig] carries an [onProxyRes] hook of the caller. *)
Context (proxyConfig_onProxyRes : bool).

Local Open Scope task_scope.

Definition next : Task St Outcome := ret Next.

(** The body of the [try] of [directiveMiddleware]: [Some o] when it
    returned from the handler with [o], [None] when it fell through. *)
Definition directiveLookup (req : Request) (doc : Document)
  : Task St (option Outcome) :=
  nextQuery <- lift (removeCacheDirective doc) ;;
  variables <- lift (prop (body req) "variables") ;;
  args <- lift (calculateArguments doc variables cacheKeyModifier req) ;;
  let '(id, timeout) := args in
  emit (CacheGet id) ;;
  possibleData <- await (get id) ;;
  if truthy possibleData then
    emit (SetHeader CACHE_HEADER "true") ;;
    ret (Some (Responded (JObj [("data", possibleData)])))
  else
    r1 <- the_req ;;
    put_req (with_hasCache r1 (id, timeout)) ;;
    r2 <- the_req ;;
    put_req (with_body r2
               (JObj (assign "query" (JStr (print nextQuery)) (spread (body r2))))) ;;
    ret None.

Definition directiveMiddleware : Task St Outcome :=
  req <- the_req ;;
  if negb (truthy (body req)) && String.eqb (method req) "POST" then
    emit (ConsoleWarn skip_warning) ;;
    next
  else
    query <- lift (prop (body req) "query") ;;
    if negb (truthy query) then next
    else
      doc <- lift (parse query) ;;
      let isCache := hasDirectives [DIRECTIVE] doc in
      answered <-
        (if isCache then
           try_catch (directiveLookup req doc)
                     (fun e => emit (ErrorOnGet e) ;; ret None)
         else ret None) ;;
      match answered with
      | Some o => ret o
      | None => next
      end.

(** [cacheBypassHeader && req.header(cacheBypassHeader)] *)
Definition bypass (req : Request) : bool :=
  match cacheBypassHeader with
  | Some name => negb (String.eqb name "") && truthy_str (header req name)
  | None => false
  end.

(** [now] is what [new Date().toISOString()] reads. *)
Definition hashMiddleware (now : string) : Task St Outcome :=
  req <- the_req ;;
  if negb (truthy (body req)) && String.eqb (method req) "POST" then
    emit (ConsoleWarn skip_warning) ;;
    next
  else
    query <- lift (prop (body req) "query") ;;
    if negb (truthy query) || bypass req then next
    else
      let bodyJson := JSON_stringify (body req) in
      let bodyHash := md5_hex bodyJson in
      put_req (with_bodyHash req bodyHash) ;;
      emit (CacheHset bodyHash "lastRequested" now globalTimeout) ;;
      await (hset bodyHash "lastRequested" now globalTimeout) ;;
      emit (CacheHget bodyHash) ;;
      cachedQuery <- await (hget bodyHash) ;;
      cached <- (if truthy cachedQuery then lift (prop cachedQuery "response")
                 else ret cachedQuery) ;;
      if truthy cached then
        emit (SetHeader CACHE_HEADER "true") ;;
        emit (SetHeader CACHE_HASH_HEADER bodyHash) ;;
        stored <- lift (prop cachedQuery "response") ;;
        data <- lift (JSON_parse stored) ;;
        ret (Responded (JObj [("data", data)]))
      else next.

(** What [onProxyReq] writes to the upstream request: the re-serialised
    body, when there is one. *)
Definition onProxyReq (req : Request) : option string :=
  if truthy (body req) then
    let data := JSON_stringify (body req) in
    if negb (String.eqb data "") then Some data else None
  else None.

(** The hash strategy's write: the [request] and [response] fields. *)
Definition hashWrite (bodyHash : string) (data : JSValue) : Task St unit :=
  r <- the_req ;;
  emit (CacheHset bodyHash "request" (JSON_stringify (body r)) globalTimeout) ;;
  await (hset bodyHash "request" (JSON_stringify (body r)) globalTimeout) ;;
  emit (CacheHset bodyHash "response" (JSON_stringify data) globalTimeout) ;;
  await (hset bodyHash "response" (JSON_stringify data) globalTimeout).

(** The directive strategy's write: a scalar entry under [hasCache.id]. *)
Definition directiveWrite (hasCache : option (string * Z)) (data : JSValue)
  : Task St unit :=
  match hasCache with
  | Some (id, timeout) =>
      emit (CacheSet id data timeout) ;;
      await (set id data timeout)
  | None =>
      throw (TypeError "Cannot read properties of undefined (reading 'id')")
  end.

(** The body of the [try] of [onProxyRes]. *)
Definition writeBack (hasCache : option (string * Z)) (bodyHash : option string)
           (proxyRes : ProxyRes) : Task St unit :=
  decoded <- lift (decode proxyRes) ;;
  response <- lift (JSON_parse (JStr decoded)) ;;
  errors <- lift (prop response "errors") ;;
  cacheable <- (if negb (truthy errors) then lift (prop response "data")
                else ret (JBool false)) ;;
  if truthy cacheable then
    data <- lift (prop response "data") ;;
    match bodyHash with
    | Some h =>
        if negb (String.eqb h "") then hashWrite h data
        else directiveWrite hasCache data
    | None => directiveWrite hasCache data
    end
  else ret tt.

Definition onProxyRes (proxyRes : ProxyRes) : Task St unit :=
  req <- the_req ;;
  let hasCache := _hasCache req in
  let bodyHash := _bodyHash req in
  (if is_Some_b hasCache || truthy_str bodyHash then
     try_catch (writeBack hasCache bodyHash proxyRes)
               (fun e => emit (ErrorOnSet e))
   else ret tt) ;;
  if proxyConfig_onProxyRes then emit UserOnProxyRes else ret tt.

(** Modelled from the spec: the routing framework that mounts the stages
    is not among the sources; sections 2 and 6 have the directive phase
    run before the hash phase, either of them able to end the request by
    answering it, and the proxy handler last. *)
Definition requestPhases (now : string) : Task St Outcome :=
  o <- directiveMiddleware ;;
  match o with
  | Next => hashMiddleware now
  | Responded payload => ret (Responded payload)
  end.

(** The proxy handler: the request goes upstream with the body
    [onProxyReq] writes, and [onProxyRes] sees the reply. *)
Definition proxyMiddleware (upstream : option string -> ProxyRes)
  : Task St (Served ProxyRes) :=
  req <- the_req ;;
  let proxyRes := upstream (onProxyReq req) in
  onProxyRes proxyRes ;;
  ret (FromUpstream proxyRes).

Definition handle (now : string) (upstream : option string -> ProxyRes)
  : Task St (Served ProxyRes) :=
  o <- requestPhases now ;;
  match o with
  | Responded payload => ret (FromCache payload)
  | Next => proxyMiddleware upstream
  end.

End createProxyCacheMiddleware.

(** ** A JavaScript runtime to run the middleware on

    [JSON.stringify], [JSON.parse] and [crypto]'s md5 on the values above,
    so that the stages can be evaluated on concrete requests. *)

Module JSON.

(** The double quote, as a one-character string. *)
Definition dq : string := String (ascii_of_nat 34) EmptyString.

Definition hex_digit (n : nat) : ascii :=
  nth n (list_ascii_of_string "0123456789abcdef") "0"%char.

Definition quote_char (c : ascii) : string :=
  let n := nat_of_ascii c in
  if Nat.eqb n 34 then String "\" dq
  else if Nat.eqb n 92 then "\\"
  else if Nat.eqb n 8 then "\b"
  else if Nat.eqb n 9 then "\t"
  else if Nat.eqb n 10 then "\n"
  else if Nat.eqb n 12 then "\f"
  else if Nat.eqb n 13 then "\r"
  else if Nat.ltb n 32 then
    "\u00" ++ String (hex_digit (Nat.div n 16)) (String (hex_digit (Nat.modulo n 16)) "")
  else String c "".

Fixpoint quote_chars (s : string) : string :=
  match s with
  | EmptyString => ""
  | String c rest => quote_char c ++ quote_chars rest
  end.

Definition quote (s : string) : string := dq ++ quote_chars s ++ dq.

Definition number_to_string (n : Z) : string :=
  NilZero.string_of_int (Z.to_int n).

Fixpoint join (sep : string) (parts : list string) : string :=
  match parts with
  | [] => ""
  | [p] => p
  | p :: rest => p ++ sep ++ join sep rest
  end.

(** SerializeJSONProperty: [None] is [undefined]. In an array [undefined]
    is written [null]; in an object the property is left out. *)
Fixpoint serialize (v : JSValue) : option string :=
  match v with
  | JUndefined => None
  | JNull => Some "null"
  | JBool true => Some "true"
  | JBool false => Some "false"
  | JNum n => Some (number_to_string n)
  | JStr s => Some (quote s)
  | JArr items =>
      Some ("[" ++ join "," (List.map (fun x => match serialize x with
                                               | Some s => s
                                               | None => "null"
                                               end) items) ++ "]")
  | JObj fields =>
      Some ("{" ++ join "," (List.concat
                               (List.map (fun kv => match serialize (snd kv) with
                                                    | Some s => [quote (fst kv) ++ ":" ++ s]
                                                    | None => []
                                                    end) fields)) ++ "}")
  end.

(** [JSON.stringify(v)] where a string is expected: [undefined] reads as
    the string a store client coerces it to. *)
Definition stringify (v : JSValue) : string :=
  match serialize v with
  | Some s => s
  | None => "undefined"
  end.

(** ToString, as [JSON.parse] applies it to its argument. *)
Fixpoint to_string (v : JSValue) : string :=
  match v with
  | JUndefined => "undefined"
  | JNull => "null"
  | JBool true => "true"
  | JBool false => "false"
  | JNum n => number_to_string n
  | JStr s => s
  | JArr items =>
      join "," (List.map (fun x => match x with
                                   | JUndefined | JNull => ""
                                   | _ => to_string x
                                   end) items)
  | JObj _ => "[object Object]"
  end.

Definition is_ws (c : ascii) : bool :=
  let n := nat_of_ascii c in
  Nat.eqb n 32 || Nat.eqb n 9 || Nat.eqb n 10 || Nat.eqb n 13.

Definition is_digit (c : ascii) : bool :=
  let n := nat_of_ascii c in Nat.leb 48 n && Nat.leb n 57.

Fixpoint skip_ws (s : string) : string :=
  match s with
  | String c rest => if is_ws c then skip_ws rest else s
  | EmptyString => s
  end.

Definition hex_value (c : ascii) : option nat :=
  let n := nat_of_ascii c in
  if Nat.leb 48 n && Nat.leb n 57 then Some (n - 48)%nat
  else if Nat.leb 97 n && Nat.leb n 102 then Some (n - 87)%nat
  else if Nat.leb 65 n && Nat.leb n 70 then Some (n - 55)%nat
  else None.

(** The characters of a string literal after its opening quote, and what
    follows the closing quote.  [\uXXXX] is read below U+0080 only. *)
Fixpoint string_body (s : string) : option (string * string) :=
  match s with
  | EmptyString => None
  | String c rest =>
      let n := nat_of_ascii c in
      if Nat.eqb n 34 then Some ("", rest)
      else if Nat.ltb n 32 then None
      else if Nat.eqb n 92 then
        match rest with
        | String e rest' =>
            let plain (x : nat) :=
              match string_body rest' with
              | Some (str, r) => Some (String (ascii_of_nat x) str, r)
              | None => None
              end in
            match e with
            | "b"%char => plain 8%nat
            | "t"%char => plain 9%nat
            | "n"%char => plain 10%nat
            | "f"%char => plain 12%nat
            | "r"%char => plain 13%nat
            | "/"%char => plain 47%nat
            | "\"%char => plain 92%nat
            | "u"%char =>
                match rest' with
                | String "0" (String "0" (String h (String l rest''))) =>
                    match hex_value h, hex_value l, string_body rest'' with
                    | Some a, Some b, Some (str, r) =>
                        if Nat.ltb a 8 then Some (String (ascii_of_nat (16 * a + b)) str, r)
                        else None
                    | _, _, _ => None
                    end
                | _ => None
                end
            | _ => if Nat.eqb (nat_of_ascii e) 34 then plain 34%nat else None
            end
        | EmptyString => None
        end
      else
        match string_body rest with
        | Some (str, r) => Some (String c str, r)
        | None => None
        end
  end.

Fixpoint digits (s : string) (acc : Z) : Z * string :=
  match s with
  | String c rest =>
      if is_digit c then digits rest (10 * acc + Z.of_nat (nat_of_ascii c - 48))
      else (acc, s)
  | EmptyString => (acc, s)
  end.

(** An integer literal; a leading zero stands alone. *)
Definition number (s : string) : option (Z * string) :=
  let unsigned (t : string) :=
    match t with
    | String c rest =>
        if Nat.eqb (nat_of_ascii c) 48 then Some (0, rest)
        else if is_digit c then Some (digits t 0)
        else None
    | EmptyString => None
    end in
  match s with
  | String "-" rest =>
      match unsigned rest with
      | Some (n, r) => Some (- n, r)
      | None => None
      end
  | _ => unsigned s
  end.

Definition literal (word : string) (v : JSValue) (s : string) : option (JSValue * string) :=
  if String.prefix word s
  then Some (v, String.substring (String.length word) (String.length s - String.length word) s)
  else None.

Fixpoint value (fuel : nat) (s : string) {struct fuel} : option (JSValue * string) :=
  match fuel with
  | O => None
  | S f =>
      match skip_ws s with
      | EmptyString => None
      | String c rest =>
          match c with
          | "{"%char =>
              match skip_ws rest with
              | String "}" r => Some (JObj [], r)
              | _ => members f rest []
              end
          | "["%char =>
              match skip_ws rest with
              | String "]" r => Some (JArr [], r)
              | _ => elements f rest []
              end
          | "t"%char => literal "true" (JBool true) (String c rest)
          | "f"%char => literal "false" (JBool false) (String c rest)
          | "n"%char => literal "null" JNull (String c rest)
          | _ =>
              if Nat.eqb (nat_of_ascii c) 34 then
                match string_body rest with
                | Some (str, r) => Some (JStr str, r)
                | None => None
                end
              else
                match number (String c rest) with
                | Some (n, r) => Some (JNum n, r)
                | None => None
                end
          end
      end
  end
with elements (fuel : nat) (s : string) (acc : list JSValue) {struct fuel}
  : option (JSValue * string) :=
  match fuel with
  | O => None
  | S f =>
      match value f s with
      | Some (v, r) =>
          match skip_ws r with
          | String "," r' => elements f r' (acc ++ [v])
          | String "]" r' => Some (JArr (acc ++ [v]), r')
          | _ => None
          end
      | None => None
      end
  end
with members (fuel : nat) (s : string) (acc : list (string * JSValue)) {struct fuel}
  : option (JSValue * string) :=
  match fuel with
  | O => None
  | S f =>
      match skip_ws s with
      | String q r =>
          if Nat.eqb (nat_of_ascii q) 34 then
            match string_body r with
            | Some (k, r1) =>
                match skip_ws r1 with
                | String ":" r2 =>
                    match value f r2 with
                    | Some (v, r3) =>
                        match skip_ws r3 with
                        | String "," r4 => members f r4 (assign k v acc)
                        | String "}" r4 => Some (JObj (assign k v acc), r4)
                        | _ => None
                        end
                    | None => None
                    end
                | _ => None
                end
            | None => None
            end
          else None
      | EmptyString => None
      end
  end.

(** [JSON.parse(text)] *)
Definition parse (text : JSValue) : Completion JSValue :=
  let s := to_string text in
  match value (2 * String.length s + 2) s with
  | Some (v, rest) =>
      match skip_ws rest with
      | EmptyString => Returned v
      | _ => Thrown (SyntaxError "Unexpected token in JSON")
      end
  | None => Thrown (SyntaxError "Unexpected token in JSON")
  end.

End JSON.

Module Crypto.

Definition mask32 : Z := 0xffffffff.
Definition add32 (a b : Z) : Z := Z.land (a + b) mask32.
Definition not32 (a : Z) : Z := Z.lxor a mask32.
Definition rotl32 (x c : Z) : Z :=
  Z.land (Z.lor (Z.shiftl x c) (Z.shiftr x (32 - c))) mask32.

Definition K : list Z :=
  [ 0xd76aa478; 0xe8c7b756; 0x242070db; 0xc1bdceee; 0xf57c0faf; 0x4787c62a; 0xa8304613; 0xfd469501;
    0x698098d8; 0x8b44f7af; 0xffff5bb1; 0x895cd7be; 0x6b901122; 0xfd987193; 0xa679438e; 0x49b40821;
    0xf61e2562; 0xc040b340; 0x265e5a51; 0xe9b6c7aa; 0xd62f105d; 0x02441453; 0xd8a1e681; 0xe7d3fbc8;
    0x21e1cde6; 0xc33707d6; 0xf4d50d87; 0x455a14ed; 0xa9e3e905; 0xfcefa3f8; 0x676f02d9; 0x8d2a4c8a;
    0xfffa3942; 0x8771f681; 0x6d9d6122; 0xfde5380c; 0xa4beea44; 0x4bdecfa9; 0xf6bb4b60; 0xbebfbc70;
    0x289b7ec6; 0xeaa127fa; 0xd4ef3085; 0x04881d05; 0xd9d4d039; 0xe6db99e5; 0x1fa27cf8; 0xc4ac5665;
    0xf4292244; 0x432aff97; 0xab9423a7; 0xfc93a039; 0x655b59c3; 0x8f0ccc92; 0xffeff47d; 0x85845dd1;
    0x6fa87e4f; 0xfe2ce6e0; 0xa3014314; 0x4e0811a1; 0xf7537e82; 0xbd3af235; 0x2ad7d2bb; 0xeb86d391 ].

Definition shifts : list Z :=
  [ 7; 12; 17; 22; 7; 12; 17; 22; 7; 12; 17; 22; 7; 12; 17; 22;
    5; 9; 14; 20; 5; 9; 14; 20; 5; 9; 14; 20; 5; 9; 14; 20;
    4; 11; 16; 23; 4; 11; 16; 23; 4; 11; 16; 23; 4; 11; 16; 23;
    6; 10; 15; 21; 6; 10; 15; 21; 6; 10; 15; 21; 6; 10; 15; 21 ].

Definition bytes_of_string (s : string) : list Z :=
  List.map (fun c => Z.of_nat (nat_of_ascii c)) (list_ascii_of_string s).

Fixpoint le_bytes (n : nat) (x : Z) : list Z :=
  match n with
  | O => []
  | S n' => Z.land x 255 :: le_bytes n' (Z.shiftr x 8)
  end.

Definition pad (msg : list Z) : list Z :=
  let len := Z.of_nat (List.length msg) in
  msg ++ [128] ++ List.repeat 0 (Z.to_nat ((55 - len) mod 64)) ++ le_bytes 8 (8 * len).

Fixpoint words (bs : list Z) : list Z :=
  match bs with
  | b0 :: b1 :: b2 :: b3 :: rest =>
      (b0 + 256 * b1 + 65536 * b2 + 16777216 * b3) :: words rest
  | _ => []
  end.

Definition step (M : list Z) (st : Z * Z * Z * Z) (i : nat) : Z * Z * Z * Z :=
  let '(a, b, c, d) := st in
  let iz := Z.of_nat i in
  let '(f, g) :=
    if Nat.ltb i 16 then (Z.lor (Z.land b c) (Z.land (not32 b) d), iz)
    else if Nat.ltb i 32 then (Z.lor (Z.land d b) (Z.land (not32 d) c), (5 * iz + 1) mod 16)
    else if Nat.ltb i 48 then (Z.lxor b (Z.lxor c d), (3 * iz + 5) mod 16)
    else (Z.lxor c (Z.lor b (not32 d)), (7 * iz) mod 16) in
  let f' := add32 (add32 (add32 f a) (nth i K 0)) (nth (Z.to_nat g) M 0) in
  (d, add32 b (rotl32 f' (nth i shifts 0)), b, c).

Definition block (st : Z * Z * Z * Z) (M : list Z) : Z * Z * Z * Z :=
  let '(a, b, c, d) := st in
  let '(a', b', c', d') := List.fold_left (step M) (List.seq 0 64) st in
  (add32 a a', add32 b b', add32 c c', add32 d d').

Fixpoint blocks (n : nat) (st : Z * Z * Z * Z) (ws : list Z) : Z * Z * Z * Z :=
  match n with
  | O => st
  | S n' => blocks n' (block st (List.firstn 16 ws)) (List.skipn 16 ws)
  end.

Definition hex_byte (b : Z) : string :=
  let n := Z.to_nat b in
  String (JSON.hex_digit (Nat.div n 16)) (String (JSON.hex_digit (Nat.modulo n 16)) "").

(** [crypto.createHash('md5').update(s).digest('hex')] *)
Definition md5_hex (s : string) : string :=
  let ws := words (pad (bytes_of_string s)) in
  let '(a, b, c, d) :=
    blocks (Nat.div (List.length ws) 16)
           (0x67452301, 0xefcdab89, 0x98badcfe, 0x10325476) ws in
  String.concat "" (List.map hex_byte
                      (le_bytes 4 a ++ le_bytes 4 b ++ le_bytes 4 c ++ le_bytes 4 d)).

End Crypto.


(** ** A stand-in for the query language

    [graphql]'s parser and printer and [apollo-utilities]' directive test
    on the token level: enough to tell a well-bracketed query from a
    malformed one, to find a directive and to print a query back. *)

Module Graphql.

Inductive Token : Type :=
| Punct (c : ascii)
| Name (s : string)
| Str (s : string).

Definition Document : Type := list Token.

Definition is_name_char (c : ascii) : bool :=
  let n := nat_of_ascii c in
  (Nat.leb 48 n && Nat.leb n 57) || (Nat.leb 65 n && Nat.leb n 90)
  || (Nat.leb 97 n && Nat.leb n 122) || Nat.eqb n 95.

Definition is_ignored (c : ascii) : bool :=
  JSON.is_ws c || Nat.eqb (nat_of_ascii c) 44.

Definition flush (cur : string) (rest : list Token) : list Token :=
  if String.eqb cur "" then rest else Name cur :: rest.

(** [cur] is the name being read; [lit] is [Some s] inside a string
    literal whose characters so far are [s]. *)
Fixpoint lex (s : string) (cur : string) (lit : option string) : option (list Token) :=
  match s with
  | EmptyString =>
      match lit with
      | Some _ => None
      | None => Some (flush cur [])
      end
  | String c rest =>
      match lit with
      | Some chars =>
          if Nat.eqb (nat_of_ascii c) 34
          then option_map (cons (Str chars)) (lex rest "" None)
          else lex rest "" (Some (chars ++ String c ""))
      | None =>
          if Nat.eqb (nat_of_ascii c) 34
          then option_map (flush cur) (lex rest "" (Some ""))
          else if is_name_char c then lex rest (cur ++ String c "") None
          else if is_ignored c then option_map (flush cur) (lex rest "" None)
          else option_map (fun ts => flush cur (Punct c :: ts)) (lex rest "" None)
      end
  end.

(** Brackets close in the order they opened. *)
Fixpoint balanced (open : list ascii) (ts : list Token) : bool :=
  match ts with
  | [] => match open with [] => true | _ => false end
  | Punct c :: rest =>
      match c with
      | "{"%char => balanced ("}"%char :: open) rest
      | "("%char => balanced (")"%char :: open) rest
      | "["%char => balanced ("]"%char :: open) rest
      | "}"%char | ")"%char | "]"%char =>
          match open with
          | c' :: open' => Ascii.eqb c c' && balanced open' rest
          | [] => false
          end
      | _ => balanced open rest
      end
  | _ :: rest => balanced open rest
  end.

Definition has_selection (ts : list Token) : bool :=
  existsb (fun t => match t with Punct "{" => true | _ => false end) ts.

(** [parse(source)]: a syntax error is thrown. *)
Definition parse (source : JSValue) : Completion Document :=
  match source with
  | JStr s =>
      match lex s "" None with
      | Some ts =>
          if has_selection ts && balanced [] ts then Returned ts
          else Thrown (GraphQLError "Syntax Error")
      | None => Thrown (GraphQLError "Syntax Error: Unterminated string.")
      end
  | _ => Thrown (GraphQLError "Must provide Source.")
  end.

Definition token_text (t : Token) : string :=
  match t with
  | Punct c => String c ""
  | Name s => s
  | Str s => JSON.quote s
  end.

(** [print(ast)] *)
Definition print (doc : Document) : string :=
  JSON.join " " (List.map token_text doc).

(** [hasDirectives(names, doc)] *)
Fixpoint hasDirectives (names : list string) (doc : Document) : bool :=
  match doc with
  | Punct "@" :: rest =>
      match rest with
      | Name n :: _ => existsb (String.eqb n) names || hasDirectives names rest
      | _ => hasDirectives names rest
      end
  | _ :: rest => hasDirectives names rest
  | [] => false
  end.

(** What follows the arguments [( ... )] of a directive, if it has any. *)
Fixpoint after_arguments (ts : list Token) : list Token :=
  match ts with
  | Punct ")" :: rest => rest
  | _ :: rest => after_arguments rest
  | [] => []
  end.

(** The tokens between the parentheses of a directive's arguments. *)
Fixpoint arguments_of (ts : list Token) : list Token :=
  match ts with
  | Punct ")" :: _ => []
  | t :: rest => t :: arguments_of rest
  | [] => []
  end.

Fixpoint directive_arguments (name : string) (doc : Document) : option (list Token) :=
  match doc with
  | Punct "@" :: rest =>
      match rest with
      | Name n :: Punct "(" :: args =>
          if String.eqb n name then Some (arguments_of args)
          else directive_arguments name rest
      | Name n :: _ =>
          if String.eqb n name then Some [] else directive_arguments name rest
      | _ => directive_arguments name rest
      end
  | _ :: rest => directive_arguments name rest
  | [] => None
  end.

(** The tokens of the operation before its selection set: its kind, its
    name, its variable definitions and its own directives. *)
Fixpoint operation_header (doc : Document) : Document :=
  match doc with
  | Punct "{" :: _ => []
  | t :: rest => t :: operation_header rest
  | [] => []
  end.

Fixpoint argument (name : string) (args : list Token) : option Token :=
  match args with
  | Name n :: rest =>
      match rest with
      | Punct ":" :: v :: _ =>
          if String.eqb n name then Some v else argument name rest
      | _ => argument name rest
      end
  | _ :: rest => argument name rest
  | [] => None
  end.

End Graphql.

(** ** The repository's helpers and cache back ends *)

Module Utils.

Definition DIRECTIVE : string := "cache".

Definition CacheKeyModifier : Type := string -> Request -> string.

(** Modelled from the spec: [removeCacheDirective] of
    [./utils-browser-only] is not among the sources; section 4.2 has it
    "rewrite the outgoing query text to remove the caching annotation".
    Every [@cache], with its arguments, is dropped. *)
Fixpoint strip (fuel : nat) (doc : Graphql.Document) : Graphql.Document :=
  match fuel with
  | O => doc
  | S f =>
      match doc with
      | Graphql.Punct "@" :: Graphql.Name n :: rest =>
          if String.eqb n DIRECTIVE then
            match rest with
            | Graphql.Punct "(" :: args => strip f (Graphql.after_arguments args)
            | _ => strip f rest
            end
          else Graphql.Punct "@" :: strip f (Graphql.Name n :: rest)
      | t :: rest => t :: strip f rest
      | [] => []
      end
  end.

Definition removeCacheDirective (doc : Graphql.Document) : Completion Graphql.Document :=
  Returned (strip (List.length doc) doc).

(** Modelled from the spec: [calculateArguments] of
    [./utils-browser-only] is not among the sources; sections 3 and 4.2
    have it extract the declared [id] and [timeout] of the annotation,
    "falling back to the global default timeout if the annotation omits
    one", and pass the id through the key modifier when one is supplied.
    The annotation read is the one on the operation; without an [id] there
    the helper throws, also when a [@cache] stands on a field only.
    [defaultTimeout] is the global default timeout. *)
Definition calculateArguments (defaultTimeout : Z)
           (doc : Graphql.Document) (variables : JSValue)
           (cacheKeyModifier : option CacheKeyModifier) (req : Request)
  : Completion (string * Z) :=
  let missing := Thrown (OtherError "@cache directive requires a unique id.") in
  match Graphql.directive_arguments DIRECTIVE (Graphql.operation_header doc) with
  | Some args =>
      match Graphql.argument "id" args with
      | Some (Graphql.Str id) =>
          let timeout :=
            match Graphql.argument "timeout" args with
            | Some (Graphql.Name n) => fst (JSON.digits n 0)
            | _ => defaultTimeout
            end in
          Returned (match cacheKeyModifier with
                    | Some modify => modify id req
                    | None => id
                    end, timeout)
      | _ => missing
      end
  | None => missing
  end.

(** Modelled from the spec: [decode] of [./utils] is not among the
    sources; section 4.4 has it "decode the upstream response body".  The
    upstream reply is taken as its body text, sent unencoded. *)
Definition ProxyRes : Type := string.

Definition decode (proxyRes : ProxyRes) : Completion string := Returned proxyRes.

End Utils.

(** The imports for a factory whose global timeout is [globalTimeout]. *)
Definition runtime_for (globalTimeout : Z) : Imports := {|
  Document := Graphql.Document;
  ProxyRes := Utils.ProxyRes;
  CacheKeyModifier := Utils.CacheKeyModifier;
  DIRECTIVE := Utils.DIRECTIVE;
  parse := Graphql.parse;
  print := Graphql.print;
  hasDirectives := Graphql.hasDirectives;
  removeCacheDirective := Utils.removeCacheDirective;
  calculateArguments := Utils.calculateArguments globalTimeout;
  decode := Utils.decode;
  JSON_parse := JSON.parse;
  JSON_stringify := JSON.stringify;
  md5_hex := Crypto.md5_hex
|}.

(** The factory's default: [globalTimeout = 0]. *)
#[global] Instance runtime : Imports := runtime_for 0.

Module Caches.

(** Modelled from the spec: the back ends of [./caches] are not among the
    sources; sections 3 and 4.1 give the contract.  An in-memory store
    with its own clock: scalar entries and hash records, each with the
    deadline its last write gave it.  A write with a positive [ttl] sets
    the deadline [ttl] units after the store's present time; a [ttl] of 0
    sets none.  An entry whose deadline has passed is absent: it is not
    read, and a write to it starts afresh. *)
Record Memory : Type := mkMemory {
  clock : Z;
  scalars : gmap string (JSValue * option Z);
  hashes : gmap string (list (string * string) * option Z)
}.

Definition empty : Memory := mkMemory 0 ∅ ∅.

Definition deadline (s : Memory) (ttl : Z) : option Z :=
  if 0 <? ttl then Some (clock s + ttl) else None.

Definition live (s : Memory) (d : option Z) : bool :=
  match d with
  | Some t => clock s <? t
  | None => true
  end.

(** The live scalar entry and the live hash record under a key. *)
Definition entry (s : Memory) (key : string) : option JSValue :=
  match scalars s !! key with
  | Some (v, d) => if live s d then Some v else None
  | None => None
  end.

Definition fields_of (s : Memory) (key : string) : option (list (string * string)) :=
  match hashes s !! key with
  | Some (fields, d) => if live s d then Some fields else None
  | None => None
  end.

Definition record (s : Memory) (key : string) : list (string * string) :=
  match fields_of s key with
  | Some fields => fields
  | None => []
  end.

Definition memory_get (key : string) (s : Memory) : Completion JSValue * Memory :=
  (Returned (match entry s key with
             | Some v => v
             | None => JUndefined
             end), s).

Definition memory_hget (key : string) (s : Memory) : Completion JSValue * Memory :=
  (Returned (match fields_of s key with
             | Some fields =>
                 JObj (List.map (fun kv => (fst kv, JStr (snd kv))) fields)
             | None => JUndefined
             end), s).

Definition memory_set (key : string) (value : JSValue) (ttl : Z) (s : Memory)
  : Completion unit * Memory :=
  (Returned tt,
   mkMemory (clock s) (<[key := (value, deadline s ttl)]> (scalars s)) (hashes s)).

(** One field is written; the record's deadline is refreshed. *)
Definition memory_hset (key field value : string) (ttl : Z) (s : Memory)
  : Completion unit * Memory :=
  (Returned tt,
   mkMemory (clock s) (scalars s)
            (<[key := (assign field value (record s key), deadline s ttl)]> (hashes s))).

Definition memory_delete (key : string) (s : Memory) : Completion bool * Memory :=
  (Returned (is_Some_b (entry s key) || is_Some_b (fields_of s key)),
   mkMemory (clock s) (base.delete key (scalars s)) (base.delete key (hashes s))).

(** Time passing at the store between two requests. *)
Definition elapse (dt : Z) (s : Memory) : Memory :=
  mkMemory (clock s + Z.max 0 dt) (scalars s) (hashes s).

#[global] Instance memory : Cache Memory := {|
  delete := memory_delete;
  get := memory_get;
  hget := memory_hget;
  set := memory_set;
  hset := memory_hset
|}.

(** A back end that cannot be reached: every promise rejects. *)
Definition refused : Exn := StoreError "connect ECONNREFUSED".

#[global] Instance unreachable : Cache unit := {|
  delete := fun _ s => (Thrown refused, s);
  get := fun _ s => (Thrown refused, s);
  hget := fun _ s => (Thrown refused, s);
  set := fun _ _ _ s => (Thrown refused, s);
  hset := fun _ _ _ _ s => (Thrown refused, s)
|}.

End Caches.

(** ** Example requests and replies *)

Module Examples.

(** [query @cache(id: "abc", timeout: 60) { user(id: 1) { name } }] *)
Definition annotated_query : string :=
  "query @cache(id: " ++ JSON.dq ++ "abc" ++ JSON.dq
  ++ ", timeout: 60) { user(id: 1) { name } }".

(** The directive on a field instead of on the operation. *)
Definition field_annotated_query : string :=
  "query { user(id: 1) @cache(id: " ++ JSON.dq ++ "abc" ++ JSON.dq
  ++ ", timeout: 60) { name } }".

(** The annotation without a [timeout]. *)
Definition untimed_query : string :=
  "query @cache(id: " ++ JSON.dq ++ "abc" ++ JSON.dq ++ ") { user(id: 1) { name } }".

Definition post (b : JSValue) : Request := mkRequest "POST" [] b None None.

Definition annotated : Request := post (JObj [("query", JStr annotated_query)]).

Definition field_annotated : Request :=
  post (JObj [("query", JStr field_annotated_query)]).

Definition plain : Request := post (JObj [("query", JStr "query { x(y: 1) }")]).

(** A query whose selection set is never closed. *)
Definition malformed : Request := post (JObj [("query", JStr "query { x(y: 1) ")]).

(** A GET on a server where nothing populated [req.body]. *)
Definition bodyless_get : Request := mkRequest "GET" [] JUndefined None None.

(** A request that carries both kinds of pending state at response time. *)
Definition pending_both : Request :=
  mkRequest "POST" []
            (JObj [("query", JStr "query { user ( id : 1 ) { name } }")])
            (Some ("abc", 60))
            (Some "a3761cb440d805dc395bf565f1551ab3").

Definition pending_directive : Request :=
  mkRequest "POST" []
            (JObj [("query", JStr "query { user ( id : 1 ) { name } }")])
            (Some ("abc", 60)) None.

(** The annotated request with the bypass header of the hash phase. *)
Definition annotated_bypassing : Request :=
  mkRequest "POST" [("x-proxy-no-cache", "1")]
            (JObj [("query", JStr annotated_query)]) None None.

Definition success : JSValue := JObj [("data", JObj [("x", JNum 1)])].

Definition failure : JSValue :=
  JObj [("errors", JArr [JObj [("message", JStr "boom")]]); ("data", JObj [("x", JNum 1)])].

Definition empty_handed : JSValue := JObj [("data", JNull)].

Definition upstream (reply : JSValue) (sent : option string) : Utils.ProxyRes :=
  JSON.stringify reply.

(** A request arriving at a server whose store is empty. *)
Definition arriving (req : Request) : World Caches.Memory := mkWorld req Caches.empty [].

(** The same, at a server whose store cannot be reached. *)
Definition cut_off (req : Request) : World unit := mkWorld req tt [].

(** A POST whose body was never populated, and a GET with an empty body. *)
Definition bodyless_post : Request := mkRequest "POST" [] JUndefined None None.

Definition query_less : Request := mkRequest "GET" [] (JObj []) None None.

(** A store that holds a payload under the directive id of [annotated]. *)
Definition warm : Caches.Memory :=
  snd (Caches.memory_set "abc" (JObj [("x", JNum 1)]) 60 Caches.empty).

(** The hash of [plain], and stores whose record for it holds a response:
    a serialized payload, and text that is not JSON. *)
Definition plain_hash : string := "d00b0b89abdd6f28e59bfda98c364a7b".

Definition answered : Caches.Memory :=
  snd (Caches.memory_hset plain_hash "response"
                          (JSON.stringify (JObj [("x", JNum 1)])) 0 Caches.empty).

Definition garbled : Caches.Memory :=
  snd (Caches.memory_hset plain_hash "response" "{oops" 0 Caches.empty).

Definition now : string := "2026-11-02T00:00:00.000Z".
Definition later : string := "2026-11-02T00:00:05.000Z".

End Examples.

(** * Properties *)

Ltac run :=
  unfold bind, try_catch, lift, emit, the_req, put_req, await, ret, throw, next;
  cbn [fst snd w_req w_store w_log].

(** ** Values *)

Lemma truthy_false_iff (v : JSValue) :
  truthy v = false <->
  v = JUndefined \/ v = JNull \/ v = JBool false \/ v = JNum 0 \/ v = JStr "".
Proof.
  split.
  - destruct v as [| |b|n|s|l|l]; cbn; intros H; try discriminate; auto.
    + destruct b; [discriminate | auto].
    + apply negb_false_iff, Z.eqb_eq in H. subst. auto 6.
    + apply negb_false_iff, String.eqb_eq in H. subst. auto 6.
  - intros [->|[->|[->|[->| ->]]]]; reflexivity.
Qed.

Lemma assoc_assign_eq {A : Type} (k : string) (v : A) (kvs : list (string * A)) :
  assoc k (assign k v kvs) = Some v.
Proof.
  induction kvs as [|[k' v'] kvs IH]; cbn.
  - rewrite String.eqb_refl. reflexivity.
  - destruct (String.eqb k k') eqn:E; cbn; rewrite E; [reflexivity | exact IH].
Qed.

Lemma assoc_assign_ne {A : Type} (k k' : string) (v : A) (kvs : list (string * A)) :
  k <> k' -> assoc k' (assign k v kvs) = assoc k' kvs.
Proof.
  intros Hne. induction kvs as [|[k0 v0] kvs IH]; cbn.
  - apply not_eq_sym, String.eqb_neq in Hne. rewrite Hne. reflexivity.
  - destruct (String.eqb k k0) eqn:E; cbn.
    + apply String.eqb_eq in E. subst k0.
      apply not_eq_sym, String.eqb_neq in Hne. rewrite Hne. reflexivity.
    + rewrite IH. reflexivity.
Qed.

(** Only an object has a truthy [query] (or any of the properties read). *)
Lemma truthy_query_is_object (v q : JSValue) (name : string) :
  prop v name = Returned q -> truthy q = true -> exists kvs, v = JObj kvs.
Proof.
  destruct v; cbn; intros H Hq; try discriminate;
    try (injection H as <-; discriminate).
  eauto.
Qed.

Lemma prop_nullish (v : JSValue) (name : string) :
  (exists e, prop v name = Thrown e) <-> v = JUndefined \/ v = JNull.
Proof.
  split.
  - intros [e H]. destruct v; cbn in H; try discriminate; auto.
  - intros [-> | ->]; cbn; eauto.
Qed.

(** ** Logs *)

Lemma writes_app (l1 l2 : list Event) : writes (l1 ++ l2) = (writes l1 ++ writes l2)%list.
Proof. apply List.filter_app. Qed.

Lemma writes_hook (b : bool) : writes (hook_log b) = [].
Proof. destruct b; reflexivity. Qed.

Lemma scalar_keys_app (l1 l2 : list Event) :
  scalar_keys (l1 ++ l2) = (scalar_keys l1 ++ scalar_keys l2)%list.
Proof.
  induction l1 as [|ev l1 IH]; [reflexivity |].
  destruct ev; cbn; rewrite IH; reflexivity.
Qed.

Lemma hash_keys_app (l1 l2 : list Event) :
  hash_keys (l1 ++ l2) = (hash_keys l1 ++ hash_keys l2)%list.
Proof.
  induction l1 as [|ev l1 IH]; [reflexivity |].
  destruct ev; cbn; rewrite IH; reflexivity.
Qed.

Lemma quiet_log (evs : list Event) :
  List.filter is_cache evs = [] ->
  writes evs = [] /\ scalar_keys evs = [] /\ hash_keys evs = [].
Proof.
  induction evs as [|ev evs IH]; [auto |].
  destruct ev; cbn; intros H; try discriminate; auto.
Qed.

Lemma keys_hook (b : bool) : scalar_keys (hook_log b) = [] /\ hash_keys (hook_log b) = [].
Proof. destruct b; split; reflexivity. Qed.

(** Keys of a log built by the three stages from a fresh request. *)
Lemma steps_keys {St : Type} (w0 w1 w2 w3 : World St) :
  w_log w0 = [] ->
  _hasCache (w_req w0) = None ->
  _bodyHash (w_req w0) = None ->
  directive_step w0 w1 -> hash_step w1 w2 -> interceptor_step w2 w3 ->
  (exists id, Forall (eq id) (scalar_keys (w_log w3))
              /\ forall id' timeout, _hasCache (w_req w3) = Some (id', timeout) -> id' = id)
  /\ (exists h, Forall (eq h) (hash_keys (w_log w3))
                /\ forall h', _bodyHash (w_req w3) = Some h' -> h' = h).
Proof.
  intros Hlog Hc0 Hb0 [ed [Hl1 [Hhd [Hb1 Hsd]]]] [eh [Hl2 [Hsh [Hc2 Hhh]]]]
         [ei [Hl3 [Hr3 [Hsi Hhi]]]].
  rewrite Hl3, Hl2, Hl1, Hlog, Hr3. cbn [app].
  rewrite !scalar_keys_app, !hash_keys_app, Hhd, Hsh, app_nil_r. cbn [app].
  rewrite Hc0 in Hsd. rewrite Hb0 in Hb1.
  split.
  - destruct Hsd as [[Hsk Hc1] | [id [Hsk Hc1]]]; rewrite Hsk.
    + exists "". split.
      * apply List.Forall_forall. intros k Hk. cbn in Hk.
        destruct (Hsi k Hk) as [t Ht]. congruence.
      * intros id' t Ht. congruence.
    + exists id. split.
      * constructor; [reflexivity |].
        apply List.Forall_forall. intros k Hk.
        destruct (Hsi k Hk) as [t Ht].
        destruct Hc1 as [Hc1 | [t1 Hc1]]; congruence.
      * intros id' t Ht. destruct Hc1 as [Hc1 | [t1 Hc1]]; congruence.
  - destruct Hhh as [[Hhk Hb2] | [h [Hb2 Hhk]]].
    + exists "". rewrite Hhk. split.
      * apply List.Forall_forall. intros k Hk. cbn in Hk.
        specialize (Hhi k Hk). congruence.
      * intros h' Hh'. congruence.
    + exists h. split.
      * apply List.Forall_app. split; [exact Hhk |].
        apply List.Forall_forall. intros k Hk.
        specialize (Hhi k Hk). congruence.
      * intros h' Hh'. congruence.
Qed.

Lemma Forall_eq_one_key (k : string) (keys : list string) :
  Forall (eq k) keys -> one_key keys.
Proof.
  intros H a b Ha Hb. rewrite List.Forall_forall in H.
  rewrite <- (H a Ha), <- (H b Hb). reflexivity.
Qed.

Section Stages.
Context {St : Type} {imports : Imports}.
Context (queryCache : Cache St)
        (cacheKeyModifier : option CacheKeyModifier)
        (cacheBypassHeader : option string)
        (globalTimeout : Z)
        (proxyConfig_onProxyRes : bool).

#[local] Abbreviation directive := (directiveMiddleware queryCache cacheKeyModifier).
#[local] Abbreviation tryBody := (directiveLookup queryCache cacheKeyModifier).
#[local] Abbreviation hashPhase := (hashMiddleware queryCache cacheBypassHeader globalTimeout).
#[local] Abbreviation interceptor := (onProxyRes queryCache globalTimeout proxyConfig_onProxyRes).

(** *** The directive phase *)

Lemma directive_no_body_post (w : World St) :
  truthy (body (w_req w)) = false ->
  method (w_req w) = "POST" ->
  directive w =
  (Returned Next, mkWorld (w_req w) (w_store w) (w_log w ++ [ConsoleWarn skip_warning])).
Proof.
  intros Hb Hm. unfold directiveMiddleware. run. rewrite Hb, Hm. reflexivity.
Qed.

Lemma directive_no_query (w : World St) (q : JSValue) :
  prop (body (w_req w)) "query" = Returned q ->
  truthy q = false ->
  truthy (body (w_req w)) = true \/ method (w_req w) <> "POST" ->
  directive w = (Returned Next, w).
Proof.
  intros Hq Hf Hg. unfold directiveMiddleware. run.
  assert (negb (truthy (body (w_req w))) && String.eqb (method (w_req w)) "POST" = false) as ->.
  { destruct Hg as [-> | Hm]; [reflexivity |].
    apply String.eqb_neq in Hm. rewrite Hm. apply andb_false_r. }
  rewrite Hq, Hf. reflexivity.
Qed.

(** [req.body.query] on a missing body: the guard before it only returns
    for a POST. *)
Lemma directive_missing_body_throws (w : World St) :
  body (w_req w) = JUndefined \/ body (w_req w) = JNull ->
  method (w_req w) <> "POST" ->
  exists msg, directive w = (Thrown (TypeError msg), w).
Proof.
  intros Hb Hm. unfold directiveMiddleware. run.
  apply String.eqb_neq in Hm. rewrite Hm, andb_false_r.
  destruct Hb as [-> | ->]; cbn; eauto.
Qed.

(** [parse] is called before the [try]: what it throws leaves the handler. *)
Lemma directive_parse_error (w : World St) (q : JSValue) (e : Exn) :
  prop (body (w_req w)) "query" = Returned q ->
  truthy q = true ->
  parse q = Thrown e ->
  directive w = (Thrown e, w).
Proof.
  intros Hq Ht Hp. unfold directiveMiddleware. run.
  destruct (truthy_query_is_object _ _ _ Hq Ht) as [kvs Hb].
  rewrite Hb in *. cbn [truthy negb andb]. rewrite Hq, Ht. cbn [negb].
  rewrite Hp. reflexivity.
Qed.

Lemma directive_no_annotation (w : World St) (q : JSValue) (doc : Document) :
  prop (body (w_req w)) "query" = Returned q ->
  truthy q = true ->
  parse q = Returned doc ->
  hasDirectives [DIRECTIVE] doc = false ->
  directive w = (Returned Next, w).
Proof.
  intros Hq Ht Hp Hd. unfold directiveMiddleware. run.
  destruct (truthy_query_is_object _ _ _ Hq Ht) as [kvs Hb].
  rewrite Hb in *. cbn [truthy negb andb]. rewrite Hq, Ht. cbn [negb].
  rewrite Hp, Hd. reflexivity.
Qed.

(** With the annotation present the handler is its [try] statement. *)
Lemma directive_annotated (w : World St) (q : JSValue) (doc : Document) :
  prop (body (w_req w)) "query" = Returned q ->
  truthy q = true ->
  parse q = Returned doc ->
  hasDirectives [DIRECTIVE] doc = true ->
  directive w =
  match tryBody (w_req w) doc w with
  | (Returned (Some o), w') => (Returned o, w')
  | (Returned None, w') => (Returned Next, w')
  | (Thrown e, w') =>
      (Returned Next, mkWorld (w_req w') (w_store w') (w_log w' ++ [ErrorOnGet e]))
  end.
Proof.
  intros Hq Ht Hp Hd. unfold directiveMiddleware. run.
  destruct (truthy_query_is_object _ _ _ Hq Ht) as [kvs Hb].
  rewrite Hb in *. cbn [truthy negb andb]. rewrite Hq, Ht. cbn [negb].
  rewrite Hp, Hd.
  destruct (directiveLookup _ _ _ _ w) as [[[o|]|e] w']; reflexivity.
Qed.

(** A failure inside the [try] happens before the request is touched. *)
Lemma tryBody_thrown (req : Request) (doc : Document) (w w' : World St) (e : Exn) :
  tryBody req doc w = (Thrown e, w') ->
  w_req w' = w_req w /\
  (w_log w' = w_log w \/ exists id, w_log w' = (w_log w ++ [CacheGet id])%list).
Proof.
  unfold directiveLookup. run.
  destruct (removeCacheDirective doc) as [nq|e1]; [| intros [= <- <-]; auto].
  destruct (prop (body req) "variables") as [vars|e1]; [| intros [= <- <-]; auto].
  destruct (calculateArguments doc vars cacheKeyModifier req) as [[id timeout]|e1];
    [| intros [= <- <-]; auto].
  cbn [w_req w_store w_log].
  destruct (get id (w_store w)) as [[v|e1] s'].
  - destruct (truthy v); cbn; intros [=].
  - cbn. intros [= <- <-]. cbn. eauto.
Qed.

(** Every failure inside the [try] is reported as a get-phase error and
    the request goes on as it came. *)
Lemma directive_catches (w w' : World St) (q : JSValue) (doc : Document) (e : Exn) :
  prop (body (w_req w)) "query" = Returned q ->
  truthy q = true ->
  parse q = Returned doc ->
  hasDirectives [DIRECTIVE] doc = true ->
  tryBody (w_req w) doc w = (Thrown e, w') ->
  directive w = (Returned Next, mkWorld (w_req w) (w_store w') (w_log w' ++ [ErrorOnGet e])).
Proof.
  intros Hq Ht Hp Hd Hl.
  rewrite (directive_annotated w q doc Hq Ht Hp Hd), Hl.
  destruct (tryBody_thrown _ _ _ _ _ Hl) as [-> _]. reflexivity.
Qed.

(** A rejected lookup is one such failure. *)
Lemma directive_lookup_error (w : World St) (q : JSValue) (doc nextQuery : Document)
      (variables : JSValue) (id : string) (timeout : Z) (e : Exn) (s' : St) :
  prop (body (w_req w)) "query" = Returned q ->
  truthy q = true ->
  parse q = Returned doc ->
  hasDirectives [DIRECTIVE] doc = true ->
  removeCacheDirective doc = Returned nextQuery ->
  prop (body (w_req w)) "variables" = Returned variables ->
  calculateArguments doc variables cacheKeyModifier (w_req w) = Returned (id, timeout) ->
  get id (w_store w) = (Thrown e, s') ->
  directive w =
  (Returned Next, mkWorld (w_req w) s' (w_log w ++ [CacheGet id; ErrorOnGet e])).
Proof.
  intros Hq Ht Hp Hd Hr Hv Hc Hg.
  rewrite (directive_catches w (mkWorld (w_req w) s' (w_log w ++ [CacheGet id])) q doc e);
    auto.
  - cbn [w_req w_store w_log]. rewrite <- app_assoc. reflexivity.
  - unfold directiveLookup. run. rewrite Hr, Hv, Hc. cbn. rewrite Hg. reflexivity.
Qed.

(** The lookup settled with [v]: a hit when [v] is truthy, a miss otherwise. *)
Lemma directive_lookup_settled (w : World St) (q : JSValue) (doc nextQuery : Document)
      (variables : JSValue) (id : string) (timeout : Z) (v : JSValue) (s' : St) :
  prop (body (w_req w)) "query" = Returned q ->
  truthy q = true ->
  parse q = Returned doc ->
  hasDirectives [DIRECTIVE] doc = true ->
  removeCacheDirective doc = Returned nextQuery ->
  prop (body (w_req w)) "variables" = Returned variables ->
  calculateArguments doc variables cacheKeyModifier (w_req w) = Returned (id, timeout) ->
  get id (w_store w) = (Returned v, s') ->
  directive w =
  if truthy v then
    (Returned (Responded (JObj [("data", v)])),
     mkWorld (w_req w) s' (w_log w ++ [CacheGet id; SetHeader CACHE_HEADER "true"]))
  else
    (Returned Next,
     mkWorld (with_body (with_hasCache (w_req w) (id, timeout))
                (JObj (assign "query" (JStr (print nextQuery)) (spread (body (w_req w))))))
             s' (w_log w ++ [CacheGet id])).
Proof.
  intros Hq Ht Hp Hd Hr Hv Hc Hg.
  rewrite (directive_annotated w q doc Hq Ht Hp Hd).
  unfold directiveLookup. run. rewrite Hr, Hv, Hc. cbn. rewrite Hg.
  destruct (truthy v); cbn; rewrite <- ?app_assoc; reflexivity.
Qed.

(** *** The hash phase *)

Lemma hash_no_body_post (now : string) (w : World St) :
  truthy (body (w_req w)) = false ->
  method (w_req w) = "POST" ->
  hashPhase now w =
  (Returned Next, mkWorld (w_req w) (w_store w) (w_log w ++ [ConsoleWarn skip_warning])).
Proof.
  intros Hb Hm. unfold hashMiddleware. run. rewrite Hb, Hm. reflexivity.
Qed.

Lemma hash_no_query (now : string) (w : World St) (q : JSValue) :
  prop (body (w_req w)) "query" = Returned q ->
  truthy q = false ->
  truthy (body (w_req w)) = true \/ method (w_req w) <> "POST" ->
  hashPhase now w = (Returned Next, w).
Proof.
  intros Hq Hf Hg. unfold hashMiddleware. run.
  assert (negb (truthy (body (w_req w))) && String.eqb (method (w_req w)) "POST" = false) as ->.
  { destruct Hg as [-> | Hm]; [reflexivity |].
    apply String.eqb_neq in Hm. rewrite Hm. apply andb_false_r. }
  rewrite Hq, Hf. reflexivity.
Qed.

Lemma hash_bypass (now : string) (w : World St) (q : JSValue) :
  prop (body (w_req w)) "query" = Returned q ->
  bypass cacheBypassHeader (w_req w) = true ->
  truthy (body (w_req w)) = true \/ method (w_req w) <> "POST" ->
  hashPhase now w = (Returned Next, w).
Proof.
  intros Hq Hf Hg. unfold hashMiddleware. run.
  assert (negb (truthy (body (w_req w))) && String.eqb (method (w_req w)) "POST" = false) as ->.
  { destruct Hg as [-> | Hm]; [reflexivity |].
    apply String.eqb_neq in Hm. rewrite Hm. apply andb_false_r. }
  rewrite Hq, Hf, orb_true_r. reflexivity.
Qed.

Lemma hash_missing_body_throws (now : string) (w : World St) :
  body (w_req w) = JUndefined \/ body (w_req w) = JNull ->
  method (w_req w) <> "POST" ->
  exists msg, hashPhase now w = (Thrown (TypeError msg), w).
Proof.
  intros Hb Hm. unfold hashMiddleware. run.
  apply String.eqb_neq in Hm. rewrite Hm, andb_false_r.
  destruct Hb as [-> | ->]; cbn; eauto.
Qed.

(** Past its guards the phase hashes the body it finds on the request,
    touches [lastRequested] and reads the record. *)
Lemma hash_entered (now : string) (w : World St) (q : JSValue) :
  prop (body (w_req w)) "query" = Returned q ->
  truthy q = true ->
  bypass cacheBypassHeader (w_req w) = false ->
  let h := md5_hex (JSON_stringify (body (w_req w))) in
  let req' := with_bodyHash (w_req w) h in
  let touched := (w_log w ++ [CacheHset h "lastRequested" now globalTimeout])%list in
  hashPhase now w =
  match hset h "lastRequested" now globalTimeout (w_store w) with
  | (Thrown e, s1) => (Thrown e, mkWorld req' s1 touched)
  | (Returned _, s1) =>
      match hget h s1 with
      | (Thrown e, s2) => (Thrown e, mkWorld req' s2 (touched ++ [CacheHget h]))
      | (Returned cachedQuery, s2) =>
          match (if truthy cachedQuery then prop cachedQuery "response"
                 else Returned cachedQuery) with
          | Thrown e => (Thrown e, mkWorld req' s2 (touched ++ [CacheHget h]))
          | Returned stored =>
              if truthy stored then
                match JSON_parse stored with
                | Returned data =>
                    (Returned (Responded (JObj [("data", data)])),
                     mkWorld req' s2
                       (touched ++ [CacheHget h; SetHeader CACHE_HEADER "true";
                                    SetHeader CACHE_HASH_HEADER h]))
                | Thrown e =>
                    (Thrown e,
                     mkWorld req' s2
                       (touched ++ [CacheHget h; SetHeader CACHE_HEADER "true";
                                    SetHeader CACHE_HASH_HEADER h]))
                end
              else (Returned Next, mkWorld req' s2 (touched ++ [CacheHget h]))
          end
      end
  end.
Proof.
  intros Hq Ht Hb. cbn zeta. unfold hashMiddleware. run.
  destruct (truthy_query_is_object _ _ _ Hq Ht) as [kvs Hbody].
  rewrite Hbody in *. cbn [truthy negb andb]. rewrite Hq, Ht, Hb. cbn [negb orb].
  destruct (hset _ _ _ _ (w_store w)) as [[[]|e] s1]; cbn; [| reflexivity].
  destruct (hget _ s1) as [[r|e] s2]; cbn; [| rewrite <- app_assoc; reflexivity].
  destruct (truthy r) eqn:Hr.
  - destruct (prop r "response") as [stored|e] eqn:Hs; cbn;
      [| rewrite <- app_assoc; reflexivity].
    destruct (truthy stored); cbn; [| rewrite <- app_assoc; reflexivity].
    destruct (JSON_parse stored); cbn; rewrite <- !app_assoc; reflexivity.
  - cbn. rewrite Hr. cbn. rewrite <- app_assoc. reflexivity.
Qed.

(** The two store calls are not inside any [try]: a rejection leaves the
    handler, after the hash has been put on the request. *)
Lemma hash_store_failure (now : string) (w : World St) (q : JSValue) (e : Exn) :
  prop (body (w_req w)) "query" = Returned q ->
  truthy q = true ->
  bypass cacheBypassHeader (w_req w) = false ->
  let h := md5_hex (JSON_stringify (body (w_req w))) in
  (forall s1, hset h "lastRequested" now globalTimeout (w_store w) = (Thrown e, s1) ->
              hashPhase now w =
              (Thrown e,
               mkWorld (with_bodyHash (w_req w) h) s1
                       (w_log w ++ [CacheHset h "lastRequested" now globalTimeout])))
  /\ (forall s1 s2,
         hset h "lastRequested" now globalTimeout (w_store w) = (Returned tt, s1) ->
         hget h s1 = (Thrown e, s2) ->
         hashPhase now w =
         (Thrown e,
          mkWorld (with_bodyHash (w_req w) h) s2
                  (w_log w ++ [CacheHset h "lastRequested" now globalTimeout; CacheHget h]))).
Proof.
  intros Hq Ht Hb. cbn zeta.
  rewrite (hash_entered now w q Hq Ht Hb). cbn zeta. split.
  - intros s1 ->. reflexivity.
  - intros s1 s2 -> ->. rewrite <- app_assoc. reflexivity.
Qed.

(** *** The response interceptor *)

Lemma payload_props (response data : JSValue) :
  error_envelope response = false ->
  payload response = Some data ->
  (exists errors, prop response "errors" = Returned errors /\ truthy errors = false)
  /\ prop response "data" = Returned data /\ truthy data = true.
Proof.
  unfold error_envelope, payload. intros He Hp.
  destruct response; cbn in *; try discriminate; eauto;
    destruct (match assoc "data" fields with Some x => x | None => JUndefined end) eqn:Hd;
    cbn in Hp; try discriminate;
    repeat match type of Hp with (if ?c then _ else _) = _ => destruct c eqn:?; try discriminate end;
    injection Hp as <-; cbn; eauto.
Qed.

Lemma not_cacheable_props (response : JSValue) :
  error_envelope response = true \/ payload response = None ->
  (exists e, prop response "errors" = Thrown e)
  \/ (exists errors, prop response "errors" = Returned errors /\ truthy errors = true)
  \/ (exists errors data, prop response "errors" = Returned errors /\ truthy errors = false
                          /\ prop response "data" = Returned data /\ truthy data = false).
Proof.
  unfold error_envelope, payload. intros H.
  destruct (prop response "errors") as [errors|e] eqn:He; [| eauto].
  right. destruct (truthy errors) eqn:Ht; [eauto |].
  right. destruct H as [H | H]; [discriminate |].
  destruct (prop response "data") as [data|e] eqn:Hd.
  - destruct (truthy data) eqn:Htd; [discriminate | eauto 8].
  - destruct response; cbn in *; discriminate.
Qed.

(** Without pending state of either kind the reply is not even decoded. *)
Lemma interceptor_idle (proxyRes : ProxyRes) (w : World St) :
  _hasCache (w_req w) = None ->
  truthy_str (_bodyHash (w_req w)) = false ->
  interceptor proxyRes w =
  (Returned tt,
   mkWorld (w_req w) (w_store w) (w_log w ++ hook_log proxyConfig_onProxyRes)).
Proof.
  intros Hc Hh. unfold onProxyRes. run. rewrite Hc, Hh. cbn.
  destruct proxyConfig_onProxyRes; cbn; rewrite ?app_nil_r; destruct w; reflexivity.
Qed.

(** A cacheable reply with a body hash on the request: the hash strategy. *)
Lemma interceptor_hash_write (proxyRes : ProxyRes) (w : World St)
      (text h : string) (response data : JSValue) :
  _bodyHash (w_req w) = Some h -> h <> "" ->
  decode proxyRes = Returned text ->
  JSON_parse (JStr text) = Returned response ->
  error_envelope response = false ->
  payload response = Some data ->
  let to_request := CacheHset h "request" (JSON_stringify (body (w_req w))) globalTimeout in
  let to_response := CacheHset h "response" (JSON_stringify data) globalTimeout in
  interceptor proxyRes w =
  (Returned tt,
   match hset h "request" (JSON_stringify (body (w_req w))) globalTimeout (w_store w) with
   | (Thrown e, s1) =>
       mkWorld (w_req w) s1
         (w_log w ++ [to_request; ErrorOnSet e] ++ hook_log proxyConfig_onProxyRes)
   | (Returned _, s1) =>
       match hset h "response" (JSON_stringify data) globalTimeout s1 with
       | (Thrown e, s2) =>
           mkWorld (w_req w) s2
             (w_log w ++ [to_request; to_response; ErrorOnSet e]
                ++ hook_log proxyConfig_onProxyRes)
       | (Returned _, s2) =>
           mkWorld (w_req w) s2
             (w_log w ++ [to_request; to_response] ++ hook_log proxyConfig_onProxyRes)
       end
   end).
Proof.
  intros Hh Hne Hd Hp He Hpay. cbn zeta.
  destruct (payload_props _ _ He Hpay) as [[errors [Herr Hte]] [Hdata Htd]].
  apply String.eqb_neq in Hne.
  unfold onProxyRes, writeBack, hashWrite. run.
  rewrite Hh. cbn [truthy_str]. rewrite Hne, orb_true_r. cbn [negb].
  rewrite Hd, Hp, Herr, Hte. cbn [negb]. rewrite Hdata, Htd. cbn [w_req w_store w_log].
  destruct (hset h "request" _ _ (w_store w)) as [[[]|e] s1]; cbn.
  - destruct (hset h "response" _ _ s1) as [[[]|e] s2]; cbn;
      destruct proxyConfig_onProxyRes; cbn; rewrite <- ?app_assoc, ?app_nil_r; reflexivity.
  - destruct proxyConfig_onProxyRes; cbn; rewrite <- ?app_assoc, ?app_nil_r; reflexivity.
Qed.

(** A cacheable reply with no body hash but directive state: the
    directive strategy. *)
Lemma interceptor_directive_write (proxyRes : ProxyRes) (w : World St)
      (text id : string) (timeout : Z) (response data : JSValue) :
  truthy_str (_bodyHash (w_req w)) = false ->
  _hasCache (w_req w) = Some (id, timeout) ->
  decode proxyRes = Returned text ->
  JSON_parse (JStr text) = Returned response ->
  error_envelope response = false ->
  payload response = Some data ->
  interceptor proxyRes w =
  (Returned tt,
   match set id data timeout (w_store w) with
   | (Thrown e, s1) =>
       mkWorld (w_req w) s1
         (w_log w ++ [CacheSet id data timeout; ErrorOnSet e]
            ++ hook_log proxyConfig_onProxyRes)
   | (Returned _, s1) =>
       mkWorld (w_req w) s1
         (w_log w ++ [CacheSet id data timeout] ++ hook_log proxyConfig_onProxyRes)
   end).
Proof.
  intros Hh Hc Hd Hp He Hpay.
  destruct (payload_props _ _ He Hpay) as [[errors [Herr Hte]] [Hdata Htd]].
  unfold onProxyRes, writeBack, directiveWrite. run.
  rewrite Hc. cbn [is_Some_b orb].
  rewrite Hd, Hp, Herr, Hte. cbn [negb]. rewrite Hdata, Htd.
  destruct (_bodyHash (w_req w)) as [h|]; cbn in Hh; [rewrite Hh |];
    cbn [w_req w_store w_log];
    destruct (set id data timeout (w_store w)) as [[[]|e] s1]; cbn;
    destruct proxyConfig_onProxyRes; cbn; rewrite <- ?app_assoc, ?app_nil_r; reflexivity.
Qed.

(** What is left of the interceptor around its [try]. *)
Lemma interceptor_unfold (proxyRes : ProxyRes) (w : World St) :
  interceptor proxyRes w =
  let done (w1 : World St) :=
    (Returned tt,
     mkWorld (w_req w1) (w_store w1) (w_log w1 ++ hook_log proxyConfig_onProxyRes)) in
  if is_Some_b (_hasCache (w_req w)) || truthy_str (_bodyHash (w_req w)) then
    match writeBack queryCache globalTimeout
            (_hasCache (w_req w)) (_bodyHash (w_req w)) proxyRes w with
    | (Returned _, w1) => done w1
    | (Thrown e, w1) =>
        done (mkWorld (w_req w1) (w_store w1) (w_log w1 ++ [ErrorOnSet e]))
    end
  else done w.
Proof.
  unfold onProxyRes. run.
  destruct (is_Some_b (_hasCache (w_req w)) || truthy_str (_bodyHash (w_req w))).
  - destruct (writeBack _ _ _ _ _ w) as [[[]|e] w1]; cbn;
      destruct proxyConfig_onProxyRes; cbn; rewrite ?app_nil_r; destruct w1; reflexivity.
  - destruct proxyConfig_onProxyRes; cbn; rewrite ?app_nil_r; destruct w; reflexivity.
Qed.

(** A reply that is not cacheable, or cannot be read at all, ends the
    [try] before any store operation. *)
Lemma writeBack_no_write (hasCache : option (string * Z)) (bodyHash : option string)
      (proxyRes : ProxyRes) (w : World St) :
  match decode proxyRes with
  | Returned text =>
      match JSON_parse (JStr text) with
      | Returned response => error_envelope response = true \/ payload response = None
      | Thrown _ => True
      end
  | Thrown _ => True
  end ->
  exists c, writeBack queryCache globalTimeout hasCache bodyHash proxyRes w = (c, w).
Proof.
  intros H. unfold writeBack. run.
  destruct (decode proxyRes) as [text|e]; cbn; [| eauto].
  destruct (JSON_parse (JStr text)) as [response|e]; cbn; [| eauto].
  destruct (not_cacheable_props _ H)
    as [[e He] | [[errors [He Ht]] | [errors [data [He [Ht [Hd Htd]]]]]]];
    rewrite He; cbn; [eauto | |].
  - rewrite Ht. cbn. eauto.
  - rewrite Ht. cbn. rewrite Hd. cbn. rewrite Htd. eauto.
Qed.

Lemma interceptor_no_write (proxyRes : ProxyRes) (w : World St) :
  match decode proxyRes with
  | Returned text =>
      match JSON_parse (JStr text) with
      | Returned response => error_envelope response = true \/ payload response = None
      | Thrown _ => True
      end
  | Thrown _ => True
  end ->
  exists evs : list Event,
    interceptor proxyRes w = (Returned tt, mkWorld (w_req w) (w_store w) (w_log w ++ evs))
    /\ List.filter is_cache evs = [].
Proof.
  intros H. rewrite interceptor_unfold. cbn zeta.
  destruct (is_Some_b (_hasCache (w_req w)) || truthy_str (_bodyHash (w_req w))).
  - destruct (writeBack_no_write (_hasCache (w_req w)) (_bodyHash (w_req w)) proxyRes w H)
      as [[[]|e] ->].
    + exists (hook_log proxyConfig_onProxyRes).
      split; [reflexivity | destruct proxyConfig_onProxyRes; reflexivity].
    + exists (ErrorOnSet e :: hook_log proxyConfig_onProxyRes).
      split; [cbn; rewrite <- app_assoc; reflexivity
             | destruct proxyConfig_onProxyRes; reflexivity].
  - exists (hook_log proxyConfig_onProxyRes).
    split; [reflexivity | destruct proxyConfig_onProxyRes; reflexivity].
Qed.

(** The interceptor's own code never throws and never touches the
    request: whatever goes wrong inside its [try] is reported as a
    set-phase error. *)
Lemma interceptor_returns (proxyRes : ProxyRes) (w : World St) :
  fst (interceptor proxyRes w) = Returned tt
  /\ w_req (snd (interceptor proxyRes w)) = w_req w.
Proof.
  rewrite interceptor_unfold. cbn zeta.
  destruct (is_Some_b (_hasCache (w_req w)) || truthy_str (_bodyHash (w_req w)));
    [| split; reflexivity].
  assert (forall c w1,
             writeBack queryCache globalTimeout (_hasCache (w_req w))
                       (_bodyHash (w_req w)) proxyRes w = (c, w1) ->
             w_req w1 = w_req w) as Hreq.
  { unfold writeBack, hashWrite, directiveWrite. run. intros c w1.
    destruct (decode proxyRes); cbn; [| intros [= <- <-]; reflexivity].
    destruct (JSON_parse _) as [response|]; cbn; [| intros [= <- <-]; reflexivity].
    destruct (prop response "errors") as [errors|]; cbn; [| intros [= <- <-]; reflexivity].
    destruct (truthy errors); cbn; [intros [= <- <-]; reflexivity |].
    destruct (prop response "data") as [data|]; cbn; [| intros [= <- <-]; reflexivity].
    destruct (truthy data); cbn; [| intros [= <- <-]; reflexivity].
    destruct (_bodyHash (w_req w)) as [h|];
      [destruct (negb (String.eqb h "")) |];
      try (destruct (_hasCache (w_req w)) as [[id timeout]|]; cbn;
           [destruct (set _ _ _ _) as [[|] ?]; cbn | ]; intros [= <- <-]; reflexivity).
    cbn. destruct (hset h "request" _ _ _) as [[|] ?]; cbn;
      [| intros [= <- <-]; reflexivity].
    destruct (hset h "response" _ _ _) as [[|] ?]; cbn; intros [= <- <-]; reflexivity. }
  destruct (writeBack _ _ _ _ _ w) as [[[]|e] w1] eqn:Hw; cbn;
    (split; [reflexivity | eapply Hreq; eauto]).
Qed.

(** *** Which strategy writes *)

(** C4. For a cacheable reply the interceptor writes through exactly one
    strategy: with a body hash on the request, [hset] of the [request]
    field and then of the [response] field under that hash (the second
    only once the first has settled), and the store is what these two
    operations leave; otherwise, with directive state on the request, one
    [set] under the directive id with the directive timeout, and the store
    is what that [set] leaves; and nothing, the store as it was, when the
    request carries neither. *)
Theorem write_path_selection (proxyRes : ProxyRes) (w : World St)
        (text : string) (response data : JSValue) :
  decode proxyRes = Returned text ->
  JSON_parse (JStr text) = Returned response ->
  error_envelope response = false ->
  payload response = Some data ->
  exists evs : list Event,
    w_log (snd (interceptor proxyRes w)) = (w_log w ++ evs)%list /\
    if truthy_str (_bodyHash (w_req w)) then
      exists h,
        _bodyHash (w_req w) = Some h /\
        writes evs =
        CacheHset h "request" (JSON_stringify (body (w_req w))) globalTimeout ::
        match fst (hset h "request" (JSON_stringify (body (w_req w)))
                        globalTimeout (w_store w)) with
        | Returned _ => [CacheHset h "response" (JSON_stringify data) globalTimeout]
        | Thrown _ => []
        end /\
        w_store (snd (interceptor proxyRes w)) =
        match hset h "request" (JSON_stringify (body (w_req w)))
                   globalTimeout (w_store w) with
        | (Returned _, s1) => snd (hset h "response" (JSON_stringify data) globalTimeout s1)
        | (Thrown _, s1) => s1
        end
    else
      match _hasCache (w_req w) with
      | Some (id, timeout) =>
          writes evs = [CacheSet id data timeout] /\
          w_store (snd (interceptor proxyRes w)) = snd (set id data timeout (w_store w))
      | None =>
          writes evs = [] /\
          w_store (snd (interceptor proxyRes w)) = w_store w
      end.
Proof.
  intros Hd Hp He Hpay.
  destruct (truthy_str (_bodyHash (w_req w))) eqn:Hh.
  - destruct (_bodyHash (w_req w)) as [h|] eqn:Hbh; [| discriminate].
    assert (h <> "") as Hne.
    { intros ->. discriminate. }
    cut (exists evs : list Event,
            w_log (snd (interceptor proxyRes w)) = (w_log w ++ evs)%list /\
            writes evs =
            CacheHset h "request" (JSON_stringify (body (w_req w))) globalTimeout ::
            match fst (hset h "request" (JSON_stringify (body (w_req w)))
                            globalTimeout (w_store w)) with
            | Returned _ => [CacheHset h "response" (JSON_stringify data) globalTimeout]
            | Thrown _ => []
            end /\
            w_store (snd (interceptor proxyRes w)) =
            match hset h "request" (JSON_stringify (body (w_req w)))
                       globalTimeout (w_store w) with
            | (Returned _, s1) =>
                snd (hset h "response" (JSON_stringify data) globalTimeout s1)
            | (Thrown _, s1) => s1
            end).
    { intros [evs [Hlog Hw]]. exists evs. split; [exact Hlog |]. exists h. auto. }
    rewrite (interceptor_hash_write proxyRes w text h response data Hbh Hne Hd Hp He Hpay).
    cbn [snd].
    destruct (hset h "request" _ _ (w_store w)) as [[[]|e] s1]; cbn [fst].
    + destruct (hset h "response" _ _ s1) as [[[]|e] s2]; cbn [w_log w_store snd];
        eexists; (split; [reflexivity |]);
        rewrite writes_app, writes_hook; split; reflexivity.
    + cbn [w_log w_store]. eexists. split; [reflexivity |].
      rewrite writes_app, writes_hook. split; reflexivity.
  - destruct (_hasCache (w_req w)) as [[id timeout]|] eqn:Hc.
    + rewrite (interceptor_directive_write proxyRes w text id timeout response data
                 Hh Hc Hd Hp He Hpay).
      cbn [snd].
      destruct (set id data timeout (w_store w)) as [[[]|e] s1]; cbn [w_log w_store snd];
        eexists; (split; [reflexivity |]); rewrite writes_app, writes_hook;
        split; reflexivity.
    + rewrite (interceptor_idle proxyRes w Hc Hh). cbn [snd w_log w_store].
      eexists. split; [reflexivity |]. split; [apply writes_hook | reflexivity].
Qed.

(** C5, as the code has it. When the request carries both directive
    state and a body hash, the hash takes precedence: a cacheable reply is
    written to the [request] field and then to the [response] field under
    the hash (the second once the first has settled), the [response] field
    receiving the serialized [data]; the store is what these two [hset]s
    leave, and nothing is read or written under the directive id.
    Directive state is the fallback: only when the request carries no hash
    is [data] set under the directive id, with the directive timeout. *)
Theorem hash_state_takes_precedence (proxyRes : ProxyRes) (w : World St)
        (text id : string) (timeout : Z) (response data : JSValue) :
  _hasCache (w_req w) = Some (id, timeout) ->
  decode proxyRes = Returned text ->
  JSON_parse (JStr text) = Returned response ->
  error_envelope response = false ->
  payload response = Some data ->
  exists evs : list Event,
    w_log (snd (interceptor proxyRes w)) = (w_log w ++ evs)%list /\
    (forall h, _bodyHash (w_req w) = Some h -> h <> "" ->
               scalar_keys evs = [] /\
               In (CacheHset h "request" (JSON_stringify (body (w_req w))) globalTimeout) evs /\
               Forall (eq h) (hash_keys evs) /\
               writes evs =
               CacheHset h "request" (JSON_stringify (body (w_req w))) globalTimeout ::
               match fst (hset h "request" (JSON_stringify (body (w_req w)))
                               globalTimeout (w_store w)) with
               | Returned _ => [CacheHset h "response" (JSON_stringify data) globalTimeout]
               | Thrown _ => []
               end /\
               w_store (snd (interceptor proxyRes w)) =
               match hset h "request" (JSON_stringify (body (w_req w)))
                          globalTimeout (w_store w) with
               | (Returned _, s1) =>
                   snd (hset h "response" (JSON_stringify data) globalTimeout s1)
               | (Thrown _, s1) => s1
               end) /\
    (truthy_str (_bodyHash (w_req w)) = false ->
     scalar_keys evs = [id] /\ hash_keys evs = [] /\
     In (CacheSet id data timeout) evs /\
     writes evs = [CacheSet id data timeout] /\
     w_store (snd (interceptor proxyRes w)) = snd (set id data timeout (w_store w))).
Proof.
  intros Hc Hd Hp He Hpay.
  destruct (truthy_str (_bodyHash (w_req w))) eqn:Hh.
  - destruct (_bodyHash (w_req w)) as [h|] eqn:Hbh; [| discriminate].
    assert (h <> "") as Hne.
    { intros ->. discriminate. }
    rewrite (interceptor_hash_write proxyRes w text h response data Hbh Hne Hd Hp He Hpay).
    cbn [snd].
    destruct (keys_hook proxyConfig_onProxyRes) as [Hks Hkh].
    destruct (hset h "request" _ _ (w_store w)) as [[[]|e] s1] eqn:E1;
      [destruct (hset h "response" _ _ s1) as [[[]|e] s2] eqn:E2 |];
      cbn [w_log w_store fst snd]; eexists; (split; [reflexivity |]);
      (split; [| intros [=]]); intros h' [= <-] _;
      rewrite scalar_keys_app, hash_keys_app, writes_app, writes_hook, Hks, Hkh, E1,
        ?E2; cbn;
      (split; [reflexivity |]); (split; [auto |]);
      (split; [repeat constructor |]); split; reflexivity.
  - rewrite (interceptor_directive_write proxyRes w text id timeout response data
               Hh Hc Hd Hp He Hpay).
    cbn [snd].
    destruct (keys_hook proxyConfig_onProxyRes) as [Hks Hkh].
    destruct (set id data timeout (w_store w)) as [[[]|e] s1];
      cbn [w_log w_store snd]; eexists; (split; [reflexivity |]);
      (split; [intros h Hbh Hne; rewrite Hbh in Hh; cbn in Hh;
               apply String.eqb_neq in Hne; rewrite Hne in Hh; discriminate |]);
      intros _; rewrite scalar_keys_app, hash_keys_app, writes_app, writes_hook, Hks, Hkh;
      cbn; auto 6.
Qed.

(** C6, as the code has it. A reply with a truthy [errors], or whose
    [data] is falsy (absent, [null], [false], 0 or the empty string), is
    never written: the interceptor performs no store operation at all and
    leaves the store as it was, whatever pending state the request carries. *)
Theorem uncacheable_reply_never_written (proxyRes : ProxyRes) (w : World St)
        (text : string) (response : JSValue) :
  decode proxyRes = Returned text ->
  JSON_parse (JStr text) = Returned response ->
  error_envelope response = true \/ payload response = None ->
  fst (interceptor proxyRes w) = Returned tt /\
  w_store (snd (interceptor proxyRes w)) = w_store w /\
  List.filter is_cache (w_log (snd (interceptor proxyRes w))) = List.filter is_cache (w_log w) /\
  writes (w_log (snd (interceptor proxyRes w))) = writes (w_log w).
Proof.
  intros Hd Hp Hn.
  destruct (interceptor_no_write proxyRes w) as [evs [-> Hq]].
  { rewrite Hd, Hp. exact Hn. }
  cbn [fst snd w_store w_log]. split; [reflexivity |]. split; [reflexivity |].
  destruct (quiet_log evs Hq) as [Hw _].
  rewrite List.filter_app, writes_app, Hq, Hw, !app_nil_r. split; reflexivity.
Qed.

(** C10. The directive lookup is a hit only for a truthy stored value.
    When the store answers with [undefined], [null], the empty string, 0 or
    [false], the phase answers nothing itself: it attaches [{id, timeout}]
    to the request, replaces the query by the printed query without the
    directive and calls [next()]. *)
Theorem falsy_lookup_is_a_miss (w : World St) (q : JSValue) (doc nextQuery : Document)
        (variables : JSValue) (id : string) (timeout : Z) (v : JSValue) (s' : St) :
  prop (body (w_req w)) "query" = Returned q ->
  truthy q = true ->
  parse q = Returned doc ->
  hasDirectives [DIRECTIVE] doc = true ->
  removeCacheDirective doc = Returned nextQuery ->
  prop (body (w_req w)) "variables" = Returned variables ->
  calculateArguments doc variables cacheKeyModifier (w_req w) = Returned (id, timeout) ->
  get id (w_store w) = (Returned v, s') ->
  In v [JUndefined; JNull; JStr ""; JNum 0; JBool false] ->
  let req' := w_req (snd (directive w)) in
  fst (directive w) = Returned Next /\
  _hasCache req' = Some (id, timeout) /\
  prop (body req') "query" = Returned (JStr (print nextQuery)) /\
  body req' = JObj (assign "query" (JStr (print nextQuery)) (spread (body (w_req w)))) /\
  w_log (snd (directive w)) = (w_log w ++ [CacheGet id])%list.
Proof.
  intros Hq Ht Hp Hd Hr Hv Hc Hg Hin. cbn zeta.
  rewrite (directive_lookup_settled w q doc nextQuery variables id timeout v s'
             Hq Ht Hp Hd Hr Hv Hc Hg).
  assert (truthy v = false) as ->.
  { apply truthy_false_iff. cbn in Hin. intuition auto. }
  cbn [fst snd w_req w_log with_body with_hasCache _hasCache body].
  repeat split. cbn [prop]. rewrite assoc_assign_eq. reflexivity.
Qed.

(** *** Keys along a request's lifecycle *)

(** What a stage appends to the log. *)
Ltac appended :=
  first [ exists (@nil Event); split; [symmetry; apply app_nil_r |]
        | eexists; split; [rewrite <- ?app_assoc; reflexivity |] ].

Lemma tryBody_trace (req : Request) (doc : Document) (w : World St) :
  directive_step w (snd (tryBody req doc w)).
Proof.
  unfold directive_step, directiveLookup. run.
  destruct (removeCacheDirective doc) as [nextQuery|e]; cbn; [| appended; auto].
  destruct (prop (body req) "variables") as [variables|e]; cbn; [| appended; auto].
  destruct (calculateArguments doc variables cacheKeyModifier req) as [[id timeout]|e];
    cbn; [| appended; auto].
  destruct (get id (w_store w)) as [[v|e] s']; cbn; [| appended; cbn; eauto 8].
  destruct (truthy v); cbn; appended; cbn; eauto 8.
Qed.

Lemma directive_trace (w : World St) : directive_step w (snd (directive w)).
Proof.
  unfold directive_step, directiveMiddleware. run.
  destruct (negb (truthy (body (w_req w))) && String.eqb (method (w_req w)) "POST");
    cbn [snd w_log w_req]; [appended; auto |].
  destruct (prop (body (w_req w)) "query") as [q|e]; cbn [snd w_log w_req];
    [| appended; auto].
  destruct (negb (truthy q)); cbn [snd w_log w_req]; [appended; auto |].
  destruct (parse q) as [doc|e]; cbn [snd w_log w_req]; [| appended; auto].
  destruct (hasDirectives [DIRECTIVE] doc); cbn [snd w_log w_req]; [| appended; auto].
  destruct (tryBody_trace (w_req w) doc w) as [evs [Hlog [Hh [Hb Hs]]]].
  fold (directiveLookup queryCache cacheKeyModifier (w_req w) doc w) in *.
  destruct (tryBody (w_req w) doc w) as [[[o|]|e] w']; cbn [snd w_log w_req] in *.
  - exists evs. auto.
  - exists evs. auto.
  - exists (evs ++ [ErrorOnGet e])%list. rewrite Hlog, <- app_assoc.
    split; [reflexivity |].
    rewrite hash_keys_app, scalar_keys_app, Hh, !app_nil_r. cbn. auto.
Qed.

Lemma hash_trace (now : string) (w : World St) : hash_step w (snd (hashPhase now w)).
Proof.
  unfold hash_step, hashMiddleware. run.
  destruct (negb (truthy (body (w_req w))) && String.eqb (method (w_req w)) "POST");
    cbn; [appended; auto |].
  destruct (prop (body (w_req w)) "query") as [q|e]; cbn; [| appended; auto].
  destruct (negb (truthy q) || bypass cacheBypassHeader (w_req w)); cbn; [appended; auto |].
  destruct (hset _ _ _ _ (w_store w)) as [[[]|e] s1]; cbn;
    [| appended; cbn; eauto 8].
  destruct (hget _ s1) as [[r|e] s2]; cbn;
    [| appended; cbn; (split; [reflexivity |]); (split; [reflexivity |]);
       right; eexists; split; [reflexivity | repeat constructor]].
  destruct (truthy r) eqn:Hr; cbn.
  - destruct (prop r "response") as [stored|e]; cbn;
      [| appended; cbn; (split; [reflexivity |]); (split; [reflexivity |]);
         right; eexists; split; [reflexivity | repeat constructor]].
    destruct (truthy stored); cbn;
      [destruct (JSON_parse stored); cbn | unfold ret; cbn];
      appended; cbn; (split; [reflexivity |]); (split; [reflexivity |]);
      right; eexists; (split; [reflexivity | repeat constructor]).
  - rewrite Hr. unfold ret. cbn.
    appended; cbn; (split; [reflexivity |]); (split; [reflexivity |]);
      right; eexists; (split; [reflexivity | repeat constructor]).
Qed.

Lemma interceptor_trace (proxyRes : ProxyRes) (w : World St) :
  interceptor_step w (snd (interceptor proxyRes w)).
Proof.
  unfold interceptor_step.
  destruct (decode proxyRes) as [text|e0] eqn:Hd.
  2:{ destruct (interceptor_no_write proxyRes w) as [evs [-> Hq]]; [rewrite Hd; exact I |].
      destruct (quiet_log evs Hq) as [_ [Hs Hh]].
      exists evs. rewrite Hs, Hh. cbn. intuition. }
  destruct (JSON_parse (JStr text)) as [response|e0] eqn:Hp.
  2:{ destruct (interceptor_no_write proxyRes w) as [evs [-> Hq]];
        [rewrite Hd, Hp; exact I |].
      destruct (quiet_log evs Hq) as [_ [Hs Hh]].
      exists evs. rewrite Hs, Hh. cbn. intuition. }
  destruct (error_envelope response) eqn:He.
  { destruct (interceptor_no_write proxyRes w) as [evs [-> Hq]];
      [rewrite Hd, Hp; auto |].
    destruct (quiet_log evs Hq) as [_ [Hs Hh]].
    exists evs. rewrite Hs, Hh. cbn. intuition. }
  destruct (payload response) as [data|] eqn:Hpay.
  2:{ destruct (interceptor_no_write proxyRes w) as [evs [-> Hq]];
        [rewrite Hd, Hp; auto |].
      destruct (quiet_log evs Hq) as [_ [Hs Hh]].
      exists evs. rewrite Hs, Hh. cbn. intuition. }
  destruct (keys_hook proxyConfig_onProxyRes) as [Hks Hkh].
  destruct (truthy_str (_bodyHash (w_req w))) eqn:Hh.
  - destruct (_bodyHash (w_req w)) as [h|] eqn:Hbh; [| discriminate].
    assert (h <> "") as Hne by (intros ->; discriminate).
    rewrite (interceptor_hash_write proxyRes w text h response data Hbh Hne Hd Hp He Hpay).
    cbn [snd].
    destruct (hset h "request" _ _ (w_store w)) as [[[]|e] s1];
      [destruct (hset h "response" _ _ s1) as [[[]|e] s2] |];
      cbn [w_log w_req]; eexists; (split; [reflexivity |]); (split; [reflexivity |]);
      rewrite scalar_keys_app, hash_keys_app, Hks, Hkh; cbn;
      (split; intros k Hk; intuition (subst; auto)).
  - destruct (_hasCache (w_req w)) as [[id timeout]|] eqn:Hc.
    + rewrite (interceptor_directive_write proxyRes w text id timeout response data
                 Hh Hc Hd Hp He Hpay).
      cbn [snd].
      destruct (set id data timeout (w_store w)) as [[[]|e] s1];
        cbn [w_log w_req]; eexists; (split; [reflexivity |]); (split; [reflexivity |]);
        rewrite scalar_keys_app, hash_keys_app, Hks, Hkh; cbn;
        (split; intros k Hk; intuition (subst; eauto)).
    + rewrite (interceptor_idle proxyRes w Hc Hh). cbn [snd w_log w_req].
      eexists. split; [reflexivity |]. split; [reflexivity |].
      rewrite Hks, Hkh. cbn. intuition.
Qed.

#[local] Abbreviation lifecycle :=
  (handle queryCache cacheKeyModifier cacheBypassHeader globalTimeout proxyConfig_onProxyRes).

Lemma hash_step_refl (w : World St) : hash_step w w.
Proof.
  exists []. rewrite app_nil_r.
  split; [reflexivity |]. split; [reflexivity |]. split; [reflexivity |].
  left. split; reflexivity.
Qed.

Lemma interceptor_step_refl (w : World St) : interceptor_step w w.
Proof.
  exists []. rewrite app_nil_r.
  split; [reflexivity |]. split; [reflexivity |].
  split; intros k [].
Qed.

(** A request's lifecycle is a directive step, then a hash step, then an
    interceptor step; the later ones are idle when the request ended early. *)
Lemma handle_steps (now : string) (upstream : option string -> ProxyRes) (w : World St) :
  exists w1 w2,
    directive_step w w1 /\ hash_step w1 w2
    /\ interceptor_step w2 (snd (lifecycle now upstream w)).
Proof.
  pose proof (directive_trace w) as Hd.
  unfold handle, requestPhases, proxyMiddleware. run.
  destruct (directive w) as [[[|p]|e] w1]; cbn [snd] in *.
  - pose proof (hash_trace now w1) as Hh.
    destruct (hashPhase now w1) as [[[|p]|e] w2]; cbn [snd] in *.
    + pose proof (interceptor_trace (upstream (onProxyReq (w_req w2))) w2) as Hi.
      destruct (interceptor _ w2) as [[[]|e] w3]; cbn [snd] in *; eauto.
    + exists w1, w2. auto using interceptor_step_refl.
    + exists w1, w2. auto using interceptor_step_refl.
  - exists w1, w1. auto using hash_step_refl, interceptor_step_refl.
  - exists w1, w1. auto using hash_step_refl, interceptor_step_refl.
Qed.

(** C7. Along the lifecycle of a request (directive phase, hash phase,
    upstream reply and interceptor) every scalar operation ([get], [set])
    uses one and the same key, which is the id kept in the directive state,
    and every hash operation ([hset], [hget]) uses one and the same key,
    which is the body hash kept on the request. *)
Theorem one_key_per_strategy (verb : string) (hs : list (string * string)) (b : JSValue)
        (store : St) (now : string) (upstream : option string -> ProxyRes) :
  let w' := snd (lifecycle now upstream (mkWorld (mkRequest verb hs b None None) store [])) in
  one_key (scalar_keys (w_log w')) /\
  one_key (hash_keys (w_log w')) /\
  (forall id timeout, _hasCache (w_req w') = Some (id, timeout) ->
                      Forall (eq id) (scalar_keys (w_log w'))) /\
  (forall h, _bodyHash (w_req w') = Some h -> Forall (eq h) (hash_keys (w_log w'))).
Proof.
  cbn zeta.
  destruct (handle_steps now upstream (mkWorld (mkRequest verb hs b None None) store []))
    as [w1 [w2 [Hd [Hh Hi]]]].
  destruct (fun H0 H1 H2 => steps_keys _ _ _ _ H0 H1 H2 Hd Hh Hi)
    as [[id [Hs Hid]] [h [Hk Hbh]]]; [reflexivity .. |].
  split; [eapply Forall_eq_one_key; eauto |].
  split; [eapply Forall_eq_one_key; eauto |].
  split.
  - intros id' t Ht. rewrite (Hid id' t Ht). exact Hs.
  - intros h' Hh'. rewrite (Hbh h' Hh'). exact Hk.
Qed.

(** *** What the hash phase digests *)

(** C8, as the code has it. The hash is the md5 digest of the serialized
    body the hash phase finds on the request.  After a directive miss that
    is the body whose query text has already lost the annotation. *)
Theorem hash_digests_the_body_it_finds
        (now : string) (w : World St) (q : JSValue) (doc nextQuery : Document)
        (variables : JSValue) (id : string) (timeout : Z) (v : JSValue) (s' : St) :
  (forall (w0 : World St) (q0 : JSValue),
      prop (body (w_req w0)) "query" = Returned q0 ->
      truthy q0 = true ->
      bypass cacheBypassHeader (w_req w0) = false ->
      _bodyHash (w_req (snd (hashPhase now w0)))
      = Some (md5_hex (JSON_stringify (body (w_req w0)))))
  /\ (prop (body (w_req w)) "query" = Returned q ->
      truthy q = true ->
      parse q = Returned doc ->
      hasDirectives [DIRECTIVE] doc = true ->
      removeCacheDirective doc = Returned nextQuery ->
      prop (body (w_req w)) "variables" = Returned variables ->
      calculateArguments doc variables cacheKeyModifier (w_req w) = Returned (id, timeout) ->
      get id (w_store w) = (Returned v, s') ->
      truthy v = false ->
      print nextQuery <> "" ->
      bypass cacheBypassHeader (w_req w) = false ->
      _bodyHash (w_req (snd (requestPhases queryCache cacheKeyModifier cacheBypassHeader
                                           globalTimeout now w)))
      = Some (md5_hex (JSON_stringify
                         (JObj (assign "query" (JStr (print nextQuery))
                                       (spread (body (w_req w)))))))).
Proof.
  assert (forall (w0 : World St) (q0 : JSValue),
             prop (body (w_req w0)) "query" = Returned q0 ->
             truthy q0 = true ->
             bypass cacheBypassHeader (w_req w0) = false ->
             _bodyHash (w_req (snd (hashPhase now w0)))
             = Some (md5_hex (JSON_stringify (body (w_req w0))))) as Hhash.
  { intros w0 q0 Hq Ht Hb.
    rewrite (hash_entered now w0 q0 Hq Ht Hb). cbn zeta.
    destruct (hset _ _ _ _ (w_store w0)) as [[[]|e] s1]; [| reflexivity].
    destruct (hget _ s1) as [[r|e] s2]; [| reflexivity].
    destruct (if truthy r then prop r "response" else Returned r) as [stored|e];
      [| reflexivity].
    destruct (truthy stored); [| reflexivity].
    destruct (JSON_parse stored); reflexivity. }
  split; [exact Hhash |].
  intros Hq Ht Hp Hd Hr Hv Hc Hg Hf Hne Hb.
  unfold requestPhases. unfold bind at 1.
  rewrite (directive_lookup_settled w q doc nextQuery variables id timeout v s'
             Hq Ht Hp Hd Hr Hv Hc Hg), Hf.
  erewrite Hhash; [reflexivity | | | exact Hb].
  - cbn [w_req with_body body prop]. rewrite assoc_assign_eq. reflexivity.
  - cbn. apply negb_true_iff, String.eqb_neq. exact Hne.
Qed.

End Stages.

(** ** The in-memory store under the hash strategy *)





(** A write to a hash record leaves the scalar entries as they are; the
    passing of time can only take entries away. *)
Lemma entry_after_hset (key field value : string) (ttl : Z) (s : Caches.Memory) (k : string) :
  Caches.entry (snd (hset key field value ttl s)) k = Caches.entry s k.
Proof. reflexivity. Qed.



Section Idempotence.
Context {imports : Imports}.
Context (cacheKeyModifier : option CacheKeyModifier)
        (cacheBypassHeader : option string)
        (globalTimeout : Z)
        (proxyConfig_onProxyRes : bool).

#[local] Abbreviation submit :=
  (handle Caches.memory cacheKeyModifier cacheBypassHeader globalTimeout
          proxyConfig_onProxyRes).

#[local] Abbreviation screen := (directiveMiddleware Caches.memory cacheKeyModifier).

#[local] Abbreviation touch h now s :=
  (snd (hset (Cache := Caches.memory) h "lastRequested" now globalTimeout s)).





End Idempotence.

(** ** Where the handlers let a failure out *)

(** C1 (the code at the failing input). A query that does not parse:
    [parse] runs before the [try], so the directive phase ends with the
    syntax error thrown; no get-phase error is reported and [next()] is not
    called. *)
Theorem parse_error_leaves_directive_phase :
  let w := Examples.arriving Examples.malformed in
  directiveMiddleware Caches.memory None w = (Thrown (GraphQLError "Syntax Error"), w).
Proof. vm_compute. reflexivity. Qed.

(** A rejected lookup, on the other hand, is caught and reported. *)
Example lookup_error_is_caught :
  directiveMiddleware Caches.unreachable None (Examples.cut_off Examples.annotated)
  = (Returned Next,
     mkWorld Examples.annotated tt [CacheGet "abc"; ErrorOnGet Caches.refused]).
Proof. vm_compute. reflexivity. Qed.

(** C2 (the code at the failing input). A GET whose body was never
    populated: the guard for a missing body only returns for a POST, and
    [req.body.query] throws in both phases; [next()] is not called. *)
Theorem missing_body_on_get_throws :
  let w := Examples.arriving Examples.bodyless_get in
  let e := TypeError "Cannot read properties of undefined (reading 'query')" in
  directiveMiddleware Caches.memory None w = (Thrown e, w)
  /\ hashMiddleware Caches.memory None 0 Examples.now w = (Thrown e, w).
Proof. vm_compute. split; reflexivity. Qed.

(** The same request sent as a POST passes through with a warning. *)
Example missing_body_on_post_passes :
  let w := Examples.arriving (mkRequest "POST" [] JUndefined None None) in
  let w' := mkWorld (w_req w) (w_store w) [ConsoleWarn skip_warning] in
  directiveMiddleware Caches.memory None w = (Returned Next, w')
  /\ hashMiddleware Caches.memory None 0 Examples.now w = (Returned Next, w').
Proof. vm_compute. split; reflexivity. Qed.

(** C3 (the code at the failing input). The store rejects the [hset] of
    [lastRequested]: the hash phase ends with the store's error thrown;
    nothing is reported to the error policy and [next()] is not called. *)
Theorem store_failure_leaves_hash_phase :
  let h := "d00b0b89abdd6f28e59bfda98c364a7b" in
  hashMiddleware Caches.unreachable None 0 Examples.now (Examples.cut_off Examples.plain)
  = (Thrown Caches.refused,
     mkWorld (with_bodyHash Examples.plain h) tt
             [CacheHset h "lastRequested" Examples.now 0]).
Proof. vm_compute. reflexivity. Qed.

(** ** Counterexamples *)

(** C5 as stated fails. The annotated request carries both kinds of state
    at response time; the cacheable reply is written under the hash, and
    nothing is written under the directive id ["abc"]. *)
Lemma directive_state_does_not_take_precedence :
  let h := "a3761cb440d805dc395bf565f1551ab3" in
  let w' := snd (onProxyRes Caches.memory 0 false (JSON.stringify Examples.success)
                            (Examples.arriving Examples.pending_both)) in
  _hasCache (w_req w') = Some ("abc", 60)
  /\ _bodyHash (w_req w') = Some h
  /\ w_log w' = [CacheHset h "request" (JSON.stringify (body Examples.pending_both)) 0;
                 CacheHset h "response" (JSON.stringify (JObj [("x", JNum 1)])) 0]
  /\ ~ In (CacheSet "abc" (JObj [("x", JNum 1)]) 60) (w_log w')
  /\ Caches.scalars (w_store w') !! "abc" = None.
Proof.
  vm_compute. split; [reflexivity |]. split; [reflexivity |]. split; [reflexivity |].
  split; [| reflexivity]. intros [H | [H | []]]; discriminate.
Qed.

(** C6 as stated fails. A reply that has an [errors] field whose value
    is falsy, and a reply whose [data] is an empty object or an empty
    array, pass the test of the interceptor and are written, under either
    strategy. *)
Lemma falsy_errors_and_empty_data_are_written :
  let h := "a3761cb440d805dc395bf565f1551ab3" in
  let after (reply : JSValue) (req : Request) :=
    snd (onProxyRes Caches.memory 0 false (JSON.stringify reply) (Examples.arriving req)) in
  let null_errors := JObj [("errors", JNull); ("data", JObj [("x", JNum 1)])] in
  let empty_object := JObj [("data", JObj [])] in
  let empty_array := JObj [("data", JArr [])] in
  let to_request := CacheHset h "request" (JSON.stringify (body Examples.pending_both)) 0 in
  prop null_errors "errors" = Returned JNull
  /\ writes (w_log (after null_errors Examples.pending_both))
     = [to_request; CacheHset h "response" (JSON.stringify (JObj [("x", JNum 1)])) 0]
  /\ assoc "response" (Caches.record (w_store (after null_errors Examples.pending_both)) h)
     = Some (JSON.stringify (JObj [("x", JNum 1)]))
  /\ writes (w_log (after empty_object Examples.pending_both))
     = [to_request; CacheHset h "response" "{}" 0]
  /\ assoc "response" (Caches.record (w_store (after empty_object Examples.pending_both)) h)
     = Some "{}"
  /\ writes (w_log (after empty_array Examples.pending_both))
     = [to_request; CacheHset h "response" "[]" 0]
  /\ writes (w_log (after empty_object Examples.pending_directive))
     = [CacheSet "abc" (JObj []) 60]
  /\ Caches.entry (w_store (after empty_object Examples.pending_directive)) "abc"
     = Some (JObj []).
Proof.
  vm_compute. split; [reflexivity |]. split; [reflexivity |]. split; [reflexivity |].
  split; [reflexivity |]. split; [reflexivity |]. split; [reflexivity |].
  split; reflexivity.
Qed.

(** C8 as stated fails. After the directive phase has stripped the
    annotation from the query, the hash phase digests the body it finds,
    which is no longer the body as it was parsed: the hash on the request
    is not the digest of the original body. *)
Lemma hash_is_of_the_stripped_body :
  let w' := snd (requestPhases Caches.memory None None 0 Examples.now
                               (Examples.arriving Examples.annotated)) in
  body (w_req w') <> body Examples.annotated
  /\ _bodyHash (w_req w') = Some (md5_hex (JSON_stringify (body (w_req w'))))
  /\ md5_hex (JSON_stringify (body Examples.annotated)) = "02dd1dbb622aaa3bb061a99948156a90"
  /\ _bodyHash (w_req w') <> Some (md5_hex (JSON_stringify (body Examples.annotated))).
Proof.
  vm_compute. split; [discriminate |]. split; [reflexivity |]. split; [reflexivity |].
  discriminate.
Qed.

(** ** The theorems at work on the examples *)

Lemma write_path_selection_witness :
  let h := "a3761cb440d805dc395bf565f1551ab3" in
  let w' := snd (onProxyRes Caches.memory 0 false (JSON.stringify Examples.success)
                            (Examples.arriving Examples.pending_both)) in
  exists evs : list Event,
    w_log w' = ([] ++ evs)%list
    /\ writes evs =
       [CacheHset h "request" (JSON.stringify (body Examples.pending_both)) 0;
        CacheHset h "response" (JSON.stringify (JObj [("x", JNum 1)])) 0]
    /\ Caches.record (w_store w') h
       = [("request", JSON.stringify (body Examples.pending_both));
          ("response", JSON.stringify (JObj [("x", JNum 1)]))].
Proof.
  destruct (write_path_selection (imports := runtime) Caches.memory 0 false
              (JSON.stringify Examples.success)
              (Examples.arriving Examples.pending_both)
              (JSON.stringify Examples.success) Examples.success (JObj [("x", JNum 1)]))
    as [evs [Hlog Hw]]; try reflexivity.
  exists evs. split; [exact Hlog |].
  cbn [Examples.arriving Examples.pending_both w_req _bodyHash truthy_str] in Hw.
  destruct Hw as [h [Hh [Hw Hs]]]. injection Hh as <-.
  rewrite Hw, Hs. vm_compute. split; reflexivity.
Defined.

Lemma hash_state_takes_precedence_witness :
  let h := "a3761cb440d805dc395bf565f1551ab3" in
  let w' := snd (onProxyRes Caches.memory 0 false (JSON.stringify Examples.success)
                            (Examples.arriving Examples.pending_both)) in
  exists evs : list Event,
    w_log w' = ([] ++ evs)%list
    /\ scalar_keys evs = []
    /\ writes evs =
       [CacheHset h "request" (JSON.stringify (body Examples.pending_both)) 0;
        CacheHset h "response" (JSON.stringify (JObj [("x", JNum 1)])) 0]
    /\ Caches.record (w_store w') h
       = [("request", JSON.stringify (body Examples.pending_both));
          ("response", JSON.stringify (JObj [("x", JNum 1)]))]
    /\ Caches.entry (w_store w') "abc" = None.
Proof.
  destruct (hash_state_takes_precedence (imports := runtime) Caches.memory 0 false
              (JSON.stringify Examples.success)
              (Examples.arriving Examples.pending_both)
              (JSON.stringify Examples.success) "abc" 60
              Examples.success (JObj [("x", JNum 1)]))
    as [evs [Hlog [Hhash _]]]; try reflexivity.
  exists evs. split; [exact Hlog |].
  destruct (Hhash "a3761cb440d805dc395bf565f1551ab3")
    as [Hscalar [_ [_ [Hw Hs]]]]; [reflexivity | discriminate |].
  split; [exact Hscalar |]. rewrite Hw, Hs. vm_compute.
  split; [reflexivity |]. split; reflexivity.
Defined.

Lemma uncacheable_reply_never_written_witness :
  let w' := snd (onProxyRes Caches.memory 0 false (JSON.stringify Examples.failure)
                            (Examples.arriving Examples.pending_both)) in
  w_store w' = Caches.empty /\ writes (w_log w') = [].
Proof.
  destruct (uncacheable_reply_never_written (imports := runtime) Caches.memory 0 false
              (JSON.stringify Examples.failure)
              (Examples.arriving Examples.pending_both)
              (JSON.stringify Examples.failure) Examples.failure)
    as [_ [Hstore [_ Hw]]]; try reflexivity.
  - left. reflexivity.
  - split; [exact Hstore | exact Hw].
Defined.

Lemma falsy_lookup_is_a_miss_witness :
  let w := Examples.arriving Examples.annotated in
  fst (directiveMiddleware Caches.memory None w) = Returned Next
  /\ _hasCache (w_req (snd (directiveMiddleware Caches.memory None w))) = Some ("abc", 60)
  /\ prop (body (w_req (snd (directiveMiddleware Caches.memory None w)))) "query"
     = Returned (JStr "query { user ( id : 1 ) { name } }").
Proof.
  cbn zeta.
  edestruct (falsy_lookup_is_a_miss (imports := runtime) Caches.memory None
               (Examples.arriving Examples.annotated)
               (JStr Examples.annotated_query))
    as [Hnext [Hpending [Hquery _]]].
  - reflexivity.
  - reflexivity.
  - vm_compute. reflexivity.
  - vm_compute. reflexivity.
  - vm_compute. reflexivity.
  - reflexivity.
  - vm_compute. reflexivity.
  - vm_compute. reflexivity.
  - left. reflexivity.
  - split; [exact Hnext |]. split; [exact Hpending |].
    rewrite Hquery. vm_compute. reflexivity.
Defined.

Lemma hash_digests_the_body_it_finds_witness :
  let w' := snd (requestPhases Caches.memory None None 0 Examples.now
                               (Examples.arriving Examples.annotated)) in
  exists stripped : string,
    prop (body (w_req w')) "query" = Returned (JStr stripped)
    /\ stripped <> Examples.annotated_query
    /\ _bodyHash (w_req w')
       = Some (md5_hex (JSON_stringify (JObj [("query", JStr stripped)]))).
Proof.
  cbn zeta.
  edestruct (hash_digests_the_body_it_finds (imports := runtime) Caches.memory None None 0
               Examples.now (Examples.arriving Examples.annotated)
               (JStr Examples.annotated_query))
    as [_ Hstripped].
  exists "query { user ( id : 1 ) { name } }".
  split; [vm_compute; reflexivity |].
  split; [vm_compute; discriminate |].
  rewrite Hstripped; cycle 1.
  - reflexivity.
  - reflexivity.
  - vm_compute. reflexivity.
  - vm_compute. reflexivity.
  - vm_compute. reflexivity.
  - reflexivity.
  - vm_compute. reflexivity.
  - vm_compute. reflexivity.
  - reflexivity.
  - vm_compute. discriminate.
  - reflexivity.
  - vm_compute. reflexivity.
Defined.


(** Once the record has expired the request goes upstream again. *)
Example expired_record_goes_upstream_again :
  let reply := Examples.upstream Examples.success in
  let first := handle (imports := runtime_for 30) Caches.memory None None 30 false Examples.now reply
                      (Examples.arriving Examples.plain) in
  let second := handle (imports := runtime_for 30) Caches.memory None None 30 false Examples.later reply
                       (mkWorld Examples.plain
                                (Caches.elapse 30 (w_store (snd first))) []) in
  fst first = Returned (FromUpstream (JSON.stringify Examples.success))
  /\ Caches.record (w_store (snd first)) Examples.plain_hash <> []
  /\ Caches.record (Caches.elapse 30 (w_store (snd first))) Examples.plain_hash = []
  /\ fst second = Returned (FromUpstream (JSON.stringify Examples.success)).
Proof.
  vm_compute. split; [reflexivity |]. split; [discriminate |]. split; reflexivity.
Qed.

(** The one scalar key: with the hash phase bypassed, the id looked up is
    the id written. *)
Example directive_lookup_and_write_share_the_key :
  w_log (snd (handle Caches.memory None (Some "X-Proxy-No-Cache") 0 false Examples.now
                     (Examples.upstream Examples.success)
                     (Examples.arriving Examples.annotated_bypassing)))
  = [CacheGet "abc"; CacheSet "abc" (JObj [("x", JNum 1)]) 60].
Proof. vm_compute. reflexivity. Qed.

(** The stored entry answers the next identical request. *)
Example directive_hit_after_write :
  let first := handle Caches.memory None (Some "X-Proxy-No-Cache") 0 false Examples.now
                      (Examples.upstream Examples.success)
                      (Examples.arriving Examples.annotated_bypassing) in
  let second := directiveMiddleware Caches.memory None
                  (mkWorld Examples.annotated_bypassing (w_store (snd first)) []) in
  fst second = Returned (Responded Examples.success)
  /\ w_log (snd second) = [CacheGet "abc"; SetHeader CACHE_HEADER "true"].
Proof. vm_compute. split; reflexivity. Qed.

(** The entry written with the directive's timeout of 60 is there 59
    units later and gone after 60. *)
Example directive_entry_expires :
  let first := handle Caches.memory None (Some "X-Proxy-No-Cache") 0 false Examples.now
                      (Examples.upstream Examples.success)
                      (Examples.arriving Examples.annotated_bypassing) in
  Caches.entry (Caches.elapse 59 (w_store (snd first))) "abc" = Some (JObj [("x", JNum 1)])
  /\ Caches.entry (Caches.elapse 60 (w_store (snd first))) "abc" = None.
Proof. vm_compute. split; reflexivity. Qed.

(** ** The runtime on examples *)

Example md5_of_abc : Crypto.md5_hex "abc" = "900150983cd24fb0d6963f7d28e17f72".
Proof. vm_compute. reflexivity. Qed.

Example md5_of_nothing : Crypto.md5_hex "" = "d41d8cd98f00b204e9800998ecf8427e".
Proof. vm_compute. reflexivity. Qed.

Example stringify_parse_success :
  JSON.parse (JStr (JSON.stringify Examples.success)) = Returned Examples.success.
Proof. vm_compute. reflexivity. Qed.

Example annotated_parses :
  exists doc, Graphql.parse (JStr Examples.annotated_query) = Returned doc
              /\ Graphql.hasDirectives [Utils.DIRECTIVE] doc = true
              /\ Utils.calculateArguments 0 doc JUndefined None Examples.annotated
                 = Returned ("abc", 60)
              /\ option_map Graphql.print
                   (match Utils.removeCacheDirective doc with
                    | Returned d => Some d
                    | Thrown _ => None
                    end)
                 = Some "query { user ( id : 1 ) { name } }".
Proof.
  eexists. split; [vm_compute; reflexivity |].
  split; [vm_compute; reflexivity |].
  split; vm_compute; reflexivity.
Qed.

(** An annotation without a [timeout] takes the global default. *)
Example untimed_annotation_takes_the_default :
  exists doc, Graphql.parse (JStr Examples.untimed_query) = Returned doc
              /\ Utils.calculateArguments 45 doc JUndefined None
                   (Examples.post (JObj [("query", JStr Examples.untimed_query)]))
                 = Returned ("abc", 45).
Proof.
  eexists. split; vm_compute; reflexivity.
Qed.

(** A [@cache] on a field only: the helper finds no id on the operation
    and throws; the directive phase reports it and passes the request on
    as it came, and the hash phase digests the body with the annotation
    still in it. *)
Example field_annotation_has_no_id :
  let missing := OtherError "@cache directive requires a unique id." in
  let w := Examples.arriving Examples.field_annotated in
  (exists doc, Graphql.parse (JStr Examples.field_annotated_query) = Returned doc
               /\ Graphql.hasDirectives [Utils.DIRECTIVE] doc = true
               /\ Utils.calculateArguments 0 doc JUndefined None Examples.field_annotated
                  = Thrown missing)
  /\ directiveMiddleware Caches.memory None w
     = (Returned Next, mkWorld Examples.field_annotated Caches.empty [ErrorOnGet missing])
  /\ _bodyHash (w_req (snd (requestPhases Caches.memory None None 0 Examples.now w)))
     = Some "74dc53ff6be799b38921378e067804c4".
Proof.
  cbn zeta. split; [eexists; split; [| split]; vm_compute; reflexivity |].
  split; vm_compute; reflexivity.
Qed.

(** The annotated request run through all three stages on an empty store;
    the request ends up carrying both kinds of pending state. *)
Example annotated_lifecycle :
  let '(served, w) :=
    handle Caches.memory None None 0 false Examples.now
           (Examples.upstream Examples.success)
           (mkWorld Examples.annotated Caches.empty []) in
  served = Returned (FromUpstream (JSON.stringify Examples.success))
  /\ w_req w = Examples.pending_both
  /\ w_log w =
     [CacheGet "abc";
      CacheHset "a3761cb440d805dc395bf565f1551ab3" "lastRequested" Examples.now 0;
      CacheHget "a3761cb440d805dc395bf565f1551ab3";
      CacheHset "a3761cb440d805dc395bf565f1551ab3" "request"
                (JSON.stringify (body Examples.pending_both)) 0;
      CacheHset "a3761cb440d805dc395bf565f1551ab3" "response"
                (JSON.stringify (JObj [("x", JNum 1)])) 0].
Proof. vm_compute. split; [| split]; reflexivity. Qed.

(** * More of the handlers *)

Section Handlers.
Context {St : Type} {imports : Imports}.
Context (queryCache : Cache St)
        (cacheKeyModifier : option CacheKeyModifier)
        (cacheBypassHeader : option string)
        (globalTimeout : Z)
        (proxyConfig_onProxyRes : bool).

#[local] Abbreviation directivePhase := (directiveMiddleware queryCache cacheKeyModifier).
#[local] Abbreviation hashing := (hashMiddleware queryCache cacheBypassHeader globalTimeout).
#[local] Abbreviation intercept := (onProxyRes queryCache globalTimeout proxyConfig_onProxyRes).

(** ** The directive phase *)

(** X1. A truthy stored value is a hit: the phase answers
    [{ data: value }] itself, marks the response with the cache header,
    leaves the request as it came and performs no store operation but the
    [get]. *)
Theorem directive_hit_serves_stored_value
        (w : World St) (q : JSValue) (doc nextQuery : Document)
        (variables : JSValue) (id : string) (timeout : Z) (v : JSValue) (s' : St) :
  prop (body (w_req w)) "query" = Returned q ->
  truthy q = true ->
  parse q = Returned doc ->
  hasDirectives [DIRECTIVE] doc = true ->
  removeCacheDirective doc = Returned nextQuery ->
  prop (body (w_req w)) "variables" = Returned variables ->
  calculateArguments doc variables cacheKeyModifier (w_req w) = Returned (id, timeout) ->
  get id (w_store w) = (Returned v, s') ->
  truthy v = true ->
  directivePhase w =
  (Returned (Responded (JObj [("data", v)])),
   mkWorld (w_req w) s' (w_log w ++ [CacheGet id; SetHeader CACHE_HEADER "true"])).
Proof.
  intros Hq Ht Hp Hd Hr Hv Hc Hg Htv.
  rewrite (directive_lookup_settled queryCache cacheKeyModifier w q doc nextQuery
             variables id timeout v s' Hq Ht Hp Hd Hr Hv Hc Hg), Htv.
  reflexivity.
Qed.

(** X2. What leaves the directive phase as an exception is thrown before
    anything was done: either the body is [undefined] or [null] on a
    request that is not a POST, or [parse] threw.  Nothing thrown inside
    the [try] gets out. *)
Theorem directive_escapes_only_before_try (w w' : World St) (e : Exn) :
  directivePhase w = (Thrown e, w') ->
  w' = w /\
  (((body (w_req w) = JUndefined \/ body (w_req w) = JNull)
    /\ method (w_req w) <> "POST"
    /\ prop (body (w_req w)) "query" = Thrown e)
   \/ exists q, prop (body (w_req w)) "query" = Returned q
                /\ truthy q = true /\ parse q = Thrown e).
Proof.
  unfold directiveMiddleware.
  unfold bind at 1. unfold the_req at 1. cbn [w_req].
  destruct (negb (truthy (body (w_req w))) && String.eqb (method (w_req w)) "POST")
    eqn:Hguard.
  { unfold bind, emit, next, ret. cbn. intros [=]. }
  unfold bind at 1. unfold lift at 1.
  destruct (prop (body (w_req w)) "query") as [q|e0] eqn:Hq.
  2:{ intros [= <- <-]. split; [reflexivity |]. left.
      assert (body (w_req w) = JUndefined \/ body (w_req w) = JNull) as Hb.
      { apply (proj1 (prop_nullish (body (w_req w)) "query")). eauto. }
      split; [exact Hb |]. split; [| reflexivity].
      intros Hm. rewrite Hm in Hguard.
      destruct Hb as [Hb | Hb]; rewrite Hb in Hguard; discriminate. }
  destruct (negb (truthy q)) eqn:Htq.
  { unfold next, ret. intros [=]. }
  apply negb_false_iff in Htq.
  unfold bind at 1. unfold lift at 1.
  destruct (parse q) as [doc|e0] eqn:Hp.
  2:{ intros [= <- <-]. split; [reflexivity |]. right. eauto. }
  cbn zeta. unfold bind at 1.
  destruct (hasDirectives [DIRECTIVE] doc).
  - unfold try_catch.
    destruct (directiveLookup queryCache cacheKeyModifier (w_req w) doc w)
      as [[[o|]|e0] w1]; unfold bind, emit, next, ret; cbn; intros [=].
  - unfold next, ret. intros [=].
Qed.

(** X3. A failure inside the [try] (directive removal, argument
    calculation or the store's [get]) ends as a miss without pending
    state: the phase calls [next()], the request is exactly as it came (no
    [_hasCache], the query still annotated), and the get-phase error is the
    last thing reported. *)
Theorem caught_failure_leaves_request_untouched
        (w w1 : World St) (q : JSValue) (doc : Document) (e : Exn) :
  prop (body (w_req w)) "query" = Returned q ->
  truthy q = true ->
  parse q = Returned doc ->
  hasDirectives [DIRECTIVE] doc = true ->
  directiveLookup queryCache cacheKeyModifier (w_req w) doc w = (Thrown e, w1) ->
  fst (directivePhase w) = Returned Next /\
  w_req (snd (directivePhase w)) = w_req w /\
  exists evs : list Event,
    w_log (snd (directivePhase w)) = (w_log w ++ evs ++ [ErrorOnGet e])%list
    /\ (evs = [] \/ exists id, evs = [CacheGet id]).
Proof.
  intros Hq Ht Hp Hd Hl.
  rewrite (directive_catches queryCache cacheKeyModifier w w1 q doc e Hq Ht Hp Hd Hl).
  cbn [fst snd w_req w_log]. split; [reflexivity |]. split; [reflexivity |].
  destruct (tryBody_thrown queryCache cacheKeyModifier _ _ _ _ _ Hl)
    as [_ [Hlog | [id Hlog]]]; rewrite Hlog.
  - exists []. cbn. auto.
  - exists [CacheGet id]. rewrite <- app_assoc. cbn. eauto.
Qed.

(** X4. A POST whose body is missing or falsy passes through both phases
    with the warning and nothing else: [next()] is called, the request and
    the store are untouched. *)
Theorem bodyless_post_passes_with_warning (now : string) (w : World St) :
  truthy (body (w_req w)) = false ->
  method (w_req w) = "POST" ->
  let warned := mkWorld (w_req w) (w_store w) (w_log w ++ [ConsoleWarn skip_warning]) in
  directivePhase w = (Returned Next, warned) /\ hashing now w = (Returned Next, warned).
Proof.
  intros Hb Hm. split.
  - apply directive_no_body_post; assumption.
  - apply hash_no_body_post; assumption.
Qed.

(** X5. A request whose body is there but carries no query text (absent,
    [null], empty) passes through both phases untouched, whatever its
    method: [next()] is called, nothing is logged, no store operation. *)
Theorem body_without_query_passes_untouched (now : string) (w : World St) (q : JSValue) :
  prop (body (w_req w)) "query" = Returned q ->
  truthy q = false ->
  truthy (body (w_req w)) = true \/ method (w_req w) <> "POST" ->
  directivePhase w = (Returned Next, w) /\ hashing now w = (Returned Next, w).
Proof.
  intros Hq Hf Hg. split.
  - eapply directive_no_query; eassumption.
  - eapply hash_no_query; eassumption.
Qed.

(** X6. A query that parses and carries no caching directive passes the
    directive phase untouched: no lookup, no header, the query text as it
    came. *)
Theorem unannotated_query_is_not_looked_up (w : World St) (q : JSValue) (doc : Document) :
  prop (body (w_req w)) "query" = Returned q ->
  truthy q = true ->
  parse q = Returned doc ->
  hasDirectives [DIRECTIVE] doc = false ->
  directivePhase w = (Returned Next, w).
Proof. apply directive_no_annotation. Qed.

(** X7. What the directive phase may touch.  It never writes to the
    store and never uses the hash operations.  It changes the request only
    on a miss, and then both at once: [_hasCache] becomes [{id, timeout}]
    and the body's query becomes the printed query without the directive,
    after exactly one [get id]; the method, the headers and [_bodyHash]
    stay. *)
Theorem directive_phase_footprint (w : World St) :
  exists evs : list Event,
    w_log (snd (directivePhase w)) = (w_log w ++ evs)%list /\
    writes evs = [] /\
    hash_keys evs = [] /\
    (w_req (snd (directivePhase w)) = w_req w
     \/ exists id timeout doc nextQuery,
         removeCacheDirective doc = Returned nextQuery /\
         evs = [CacheGet id] /\
         w_req (snd (directivePhase w))
         = with_body (with_hasCache (w_req w) (id, timeout))
                     (JObj (assign "query" (JStr (print nextQuery))
                                   (spread (body (w_req w)))))).
Proof.
  unfold directiveMiddleware. run.
  destruct (negb (truthy (body (w_req w))) && String.eqb (method (w_req w)) "POST");
    cbn [snd w_log w_req].
  { eexists. split; [reflexivity |]. cbn. auto. }
  destruct (prop (body (w_req w)) "query") as [q|e0]; cbn [snd w_log w_req].
  2:{ exists []. rewrite app_nil_r. cbn. auto. }
  destruct (negb (truthy q)); cbn [snd w_log w_req].
  { exists []. rewrite app_nil_r. cbn. auto. }
  destruct (parse q) as [doc|e0]; cbn [snd w_log w_req].
  2:{ exists []. rewrite app_nil_r. cbn. auto. }
  destruct (hasDirectives [DIRECTIVE] doc); cbn [snd w_log w_req].
  2:{ exists []. rewrite app_nil_r. cbn. auto. }
  unfold directiveLookup. run.
  destruct (removeCacheDirective doc) as [nextQuery|e0] eqn:Hr; cbn.
  2:{ eexists. split; [reflexivity |]. cbn. auto. }
  destruct (prop (body (w_req w)) "variables") as [variables|e0]; cbn.
  2:{ eexists. split; [reflexivity |]. cbn. auto. }
  destruct (calculateArguments doc variables cacheKeyModifier (w_req w))
    as [[id timeout]|e0]; cbn.
  2:{ eexists. split; [reflexivity |]. cbn. auto. }
  destruct (get id (w_store w)) as [[v|e0] s']; cbn.
  - destruct (truthy v); cbn.
    + rewrite <- app_assoc. eexists. split; [reflexivity |]. cbn. auto.
    + eexists. split; [reflexivity |]. cbn. split; [reflexivity |].
      split; [reflexivity |]. right. exists id, timeout, doc, nextQuery. auto.
  - rewrite <- app_assoc. eexists. split; [reflexivity |]. cbn. auto.
Qed.

(** ** The hash phase *)

(** X8. With the bypass header configured and sent, on a request whose
    body is neither [undefined] nor [null] (so that reading [query] off it
    does not throw) and is not a falsy body on a POST (which takes the
    warning path), the hash phase is a no-op whatever the store holds: no
    hash on the request, no store operation, nothing logged, [next()]. *)
Theorem bypass_header_skips_hash_phase
        (now : string) (w : World St) (q : JSValue) (name value : string) :
  cacheBypassHeader = Some name -> name <> "" ->
  header (w_req w) name = Some value -> value <> "" ->
  prop (body (w_req w)) "query" = Returned q ->
  truthy (body (w_req w)) = true \/ method (w_req w) <> "POST" ->
  hashing now w = (Returned Next, w).
Proof.
  intros Hcfg Hname Hsent Hvalue Hq Hg.
  apply (hash_bypass queryCache cacheBypassHeader globalTimeout now w q Hq); [| exact Hg].
  unfold bypass. rewrite Hcfg, Hsent. cbn.
  apply String.eqb_neq in Hname, Hvalue. rewrite Hname, Hvalue. reflexivity.
Qed.

(** X9. A record with a truthy [response] is a hit: after touching
    [lastRequested] the phase answers [{ data: JSON.parse(response) }]
    itself, with the cache header and the hash header, and leaves the hash
    on the request. *)
Theorem hash_hit_serves_stored_response
        (now : string) (w : World St) (q r stored data : JSValue) (s1 s2 : St) :
  prop (body (w_req w)) "query" = Returned q ->
  truthy q = true ->
  bypass cacheBypassHeader (w_req w) = false ->
  let h := md5_hex (JSON_stringify (body (w_req w))) in
  hset h "lastRequested" now globalTimeout (w_store w) = (Returned tt, s1) ->
  hget h s1 = (Returned r, s2) ->
  prop r "response" = Returned stored ->
  truthy stored = true ->
  JSON_parse stored = Returned data ->
  hashing now w =
  (Returned (Responded (JObj [("data", data)])),
   mkWorld (with_bodyHash (w_req w) h) s2
           (w_log w ++ [CacheHset h "lastRequested" now globalTimeout; CacheHget h;
                        SetHeader CACHE_HEADER "true"; SetHeader CACHE_HASH_HEADER h])).
Proof.
  intros Hq Ht Hb h Hset Hget Hresp Hts Hparse.
  rewrite (hash_entered queryCache cacheBypassHeader globalTimeout now w q Hq Ht Hb).
  cbn zeta. fold h. rewrite Hset, Hget.
  destruct (truthy_query_is_object _ _ _ Hresp Hts) as [kvs ->].
  cbn [truthy]. rewrite Hresp, Hts, Hparse, <- app_assoc. reflexivity.
Qed.

(** X10. An unknown key is a miss, not an error: when [hget] settles with
    [undefined] or [null], or with a record whose [response] is missing or
    empty, the phase calls [next()] after the touch and the read, with the
    hash on the request. *)
Theorem hash_miss_on_absent_response
        (now : string) (w : World St) (q r : JSValue) (s1 s2 : St) :
  prop (body (w_req w)) "query" = Returned q ->
  truthy q = true ->
  bypass cacheBypassHeader (w_req w) = false ->
  let h := md5_hex (JSON_stringify (body (w_req w))) in
  hset h "lastRequested" now globalTimeout (w_store w) = (Returned tt, s1) ->
  hget h s1 = (Returned r, s2) ->
  r = JUndefined \/ r = JNull
  \/ (exists stored, prop r "response" = Returned stored /\ truthy stored = false) ->
  hashing now w =
  (Returned Next,
   mkWorld (with_bodyHash (w_req w) h) s2
           (w_log w ++ [CacheHset h "lastRequested" now globalTimeout; CacheHget h])).
Proof.
  intros Hq Ht Hb h Hset Hget Hr.
  rewrite (hash_entered queryCache cacheBypassHeader globalTimeout now w q Hq Ht Hb).
  cbn zeta. fold h. rewrite Hset, Hget.
  destruct Hr as [-> | [-> | [stored [Hresp Hts]]]];
    [cbn; rewrite <- app_assoc; reflexivity .. |].
  destruct (truthy r) eqn:Htr.
  - rewrite Hresp, Hts, <- app_assoc. reflexivity.
  - rewrite Htr, <- app_assoc. reflexivity.
Qed.

(** X11. A stored [response] that [JSON.parse] rejects makes the phase
    throw: the [JSON.parse] of a hit is outside any [try], so its error
    leaves the handler after both headers were set, and [next()] is not
    called. *)
Theorem unparsable_stored_response_throws
        (now : string) (w : World St) (q r stored : JSValue) (s1 s2 : St) (e : Exn) :
  prop (body (w_req w)) "query" = Returned q ->
  truthy q = true ->
  bypass cacheBypassHeader (w_req w) = false ->
  let h := md5_hex (JSON_stringify (body (w_req w))) in
  hset h "lastRequested" now globalTimeout (w_store w) = (Returned tt, s1) ->
  hget h s1 = (Returned r, s2) ->
  prop r "response" = Returned stored ->
  truthy stored = true ->
  JSON_parse stored = Thrown e ->
  hashing now w =
  (Thrown e,
   mkWorld (with_bodyHash (w_req w) h) s2
           (w_log w ++ [CacheHset h "lastRequested" now globalTimeout; CacheHget h;
                        SetHeader CACHE_HEADER "true"; SetHeader CACHE_HASH_HEADER h])).
Proof.
  intros Hq Ht Hb h Hset Hget Hresp Hts Hparse.
  rewrite (hash_entered queryCache cacheBypassHeader globalTimeout now w q Hq Ht Hb).
  cbn zeta. fold h. rewrite Hset, Hget.
  destruct (truthy_query_is_object _ _ _ Hresp Hts) as [kvs ->].
  cbn [truthy]. rewrite Hresp, Hts, Hparse, <- app_assoc. reflexivity.
Qed.

(** Past its guards the phase always leaves the hash on the request,
    however it ends. *)
Lemma hash_entered_request (now : string) (w : World St) (q : JSValue) :
  prop (body (w_req w)) "query" = Returned q ->
  truthy q = true ->
  bypass cacheBypassHeader (w_req w) = false ->
  w_req (snd (hashing now w))
  = with_bodyHash (w_req w) (md5_hex (JSON_stringify (body (w_req w)))).
Proof.
  intros Hq Ht Hb.
  rewrite (hash_entered queryCache cacheBypassHeader globalTimeout now w q Hq Ht Hb).
  cbn zeta.
  destruct (hset _ _ _ _ (w_store w)) as [[[]|e] s1]; [| reflexivity].
  destruct (hget _ s1) as [[r|e] s2]; [| reflexivity].
  destruct (if truthy r then prop r "response" else Returned r) as [stored|e];
    [| reflexivity].
  destruct (truthy stored); [| reflexivity].
  destruct (JSON_parse stored); reflexivity.
Qed.

(** X12. What the hash phase may touch.  It never uses the scalar
    operations.  Either it leaves the request and the store alone and
    writes nothing, or it sets [_bodyHash] to the md5 of the serialized
    body, changing nothing else on the request, and its one write is the
    touch of [lastRequested] under that hash with the global timeout. *)
Theorem hash_phase_footprint (now : string) (w : World St) :
  let h := md5_hex (JSON_stringify (body (w_req w))) in
  exists evs : list Event,
    w_log (snd (hashing now w)) = (w_log w ++ evs)%list /\
    scalar_keys evs = [] /\
    ((w_req (snd (hashing now w)) = w_req w
      /\ w_store (snd (hashing now w)) = w_store w
      /\ List.filter is_cache evs = [])
     \/ (w_req (snd (hashing now w)) = with_bodyHash (w_req w) h
         /\ writes evs = [CacheHset h "lastRequested" now globalTimeout]
         /\ Forall (eq h) (hash_keys evs))).
Proof.
  cbn zeta. unfold hashMiddleware. run.
  destruct (negb (truthy (body (w_req w))) && String.eqb (method (w_req w)) "POST"); cbn.
  { eexists. split; [reflexivity |]. cbn. auto 10. }
  destruct (prop (body (w_req w)) "query") as [q|e]; cbn.
  2:{ exists []. rewrite app_nil_r. cbn. auto 10. }
  destruct (negb (truthy q) || bypass cacheBypassHeader (w_req w)); cbn.
  { exists []. rewrite app_nil_r. cbn. auto 10. }
  destruct (hset _ _ _ _ (w_store w)) as [[[]|e] s1]; cbn.
  2:{ eexists. split; [reflexivity |]. cbn. split; [reflexivity |]. right.
      split; [reflexivity |]. split; [reflexivity |]. repeat constructor. }
  destruct (hget _ s1) as [[r|e] s2]; cbn.
  2:{ rewrite <- app_assoc. eexists. split; [reflexivity |]. cbn.
      split; [reflexivity |]. right.
      split; [reflexivity |]. split; [reflexivity |]. repeat constructor. }
  destruct (truthy r) eqn:Hr; cbn.
  - destruct (prop r "response") as [stored|e]; cbn.
    2:{ rewrite <- app_assoc. eexists. split; [reflexivity |]. cbn.
        split; [reflexivity |]. right.
        split; [reflexivity |]. split; [reflexivity |]. repeat constructor. }
    destruct (truthy stored); cbn;
      [destruct (JSON_parse stored); cbn | unfold ret; cbn];
      rewrite <- ?app_assoc; eexists; (split; [reflexivity |]); cbn;
      (split; [reflexivity |]); right;
      (split; [reflexivity |]); (split; [reflexivity |]); repeat constructor.
  - rewrite Hr. unfold ret. cbn.
    rewrite <- app_assoc. eexists. split; [reflexivity |]. cbn.
    split; [reflexivity |]. right.
    split; [reflexivity |]. split; [reflexivity |]. repeat constructor.
Qed.

(** X13. What leaves the hash phase as an exception: the read of
    [req.body.query] on a missing body of a request that is not a POST
    (nothing was done), or, with the hash already on the request, a
    rejected [hset], a rejected [hget], or the [JSON.parse] of the stored
    response.  Nothing else makes the phase throw. *)
Theorem hash_phase_escapes (now : string) (w w' : World St) (e : Exn) :
  hashing now w = (Thrown e, w') ->
  let h := md5_hex (JSON_stringify (body (w_req w))) in
  (w' = w
   /\ (body (w_req w) = JUndefined \/ body (w_req w) = JNull)
   /\ method (w_req w) <> "POST")
  \/ (_bodyHash (w_req w') = Some h
      /\ (fst (hset h "lastRequested" now globalTimeout (w_store w)) = Thrown e
          \/ exists s1,
              hset h "lastRequested" now globalTimeout (w_store w) = (Returned tt, s1)
              /\ (fst (hget h s1) = Thrown e
                  \/ exists r s2 stored,
                      hget h s1 = (Returned r, s2)
                      /\ prop r "response" = Returned stored
                      /\ truthy stored = true
                      /\ JSON_parse stored = Thrown e))).
Proof.
  cbn zeta. unfold hashMiddleware. run.
  destruct (negb (truthy (body (w_req w))) && String.eqb (method (w_req w)) "POST")
    eqn:Hguard; cbn.
  { intros [=]. }
  destruct (prop (body (w_req w)) "query") as [q|e0] eqn:Hq; cbn.
  2:{ intros [= <- <-]. left. split; [reflexivity |].
      assert (body (w_req w) = JUndefined \/ body (w_req w) = JNull) as Hb.
      { apply (proj1 (prop_nullish (body (w_req w)) "query")). eauto. }
      split; [exact Hb |].
      intros Hm. rewrite Hm in Hguard.
      destruct Hb as [Hb | Hb]; rewrite Hb in Hguard; discriminate. }
  destruct (negb (truthy q) || bypass cacheBypassHeader (w_req w)); cbn.
  { intros [=]. }
  destruct (hset _ _ _ _ (w_store w)) as [[[]|e0] s1]; cbn.
  2:{ intros [= <- <-]. right. cbn. auto. }
  destruct (hget _ s1) as [[r|e0] s2] eqn:Hget; cbn.
  2:{ intros [= <- <-]. right. cbn. split; [reflexivity |]. right.
      exists s1. split; [reflexivity |]. left. rewrite Hget. reflexivity. }
  destruct (truthy r) eqn:Hr; cbn.
  - destruct (prop r "response") as [stored|e0] eqn:Hs; cbn.
    { destruct (truthy stored) eqn:Hts; cbn.
      - destruct (JSON_parse stored) as [data|e0] eqn:Hparse; cbn; intros [= <- <-].
        right. cbn. split; [reflexivity |]. right.
        exists s1. split; [reflexivity |]. right.
        exists r, s2, stored. rewrite Hget. auto.
      - unfold ret. intros [=]. }
    destruct r; cbn in Hs, Hr; discriminate.
  - rewrite Hr. unfold ret. cbn. intros [=].
Qed.

(** ** The proxy hooks *)

(** What the [try] of the interceptor logs is store writes only. *)
Lemma directiveWrite_log (hasCache : option (string * Z)) (data : JSValue) (w : World St) :
  exists evs : list Event,
    w_log (snd (directiveWrite queryCache hasCache data w)) = (w_log w ++ evs)%list
    /\ Forall (fun ev => is_write ev = true) evs.
Proof.
  unfold directiveWrite. run.
  destruct hasCache as [[id timeout]|]; cbn.
  - destruct (set id data timeout (w_store w)) as [[|] ?]; cbn;
      eexists; (split; [reflexivity |]); repeat constructor.
  - exists []. rewrite app_nil_r. auto.
Qed.

Lemma writeBack_log (hasCache : option (string * Z)) (bodyHash : option string)
      (proxyRes : ProxyRes) (w : World St) :
  exists evs : list Event,
    w_log (snd (writeBack queryCache globalTimeout hasCache bodyHash proxyRes w))
    = (w_log w ++ evs)%list
    /\ Forall (fun ev => is_write ev = true) evs.
Proof.
  unfold writeBack, hashWrite. run.
  destruct (decode proxyRes); cbn [snd w_log];
    [| exists []; rewrite app_nil_r; auto].
  destruct (JSON_parse _) as [response|]; cbn [snd w_log];
    [| exists []; rewrite app_nil_r; auto].
  destruct (prop response "errors") as [errors|]; cbn [snd w_log];
    [| exists []; rewrite app_nil_r; auto].
  destruct (truthy errors); cbn [negb snd w_log];
    [exists []; rewrite app_nil_r; auto |].
  destruct (prop response "data") as [data|]; cbn [snd w_log];
    [| exists []; rewrite app_nil_r; auto].
  destruct (truthy data); cbn [snd w_log];
    [| exists []; rewrite app_nil_r; auto].
  destruct bodyHash as [h|]; [destruct (negb (String.eqb h "")) |];
    try apply directiveWrite_log.
  cbn. destruct (hset h "request" _ _ _) as [[|] ?]; cbn.
  - destruct (hset h "response" _ _ _) as [[|] ?]; cbn;
      rewrite <- app_assoc; eexists; (split; [reflexivity |]); repeat constructor.
  - eexists. split; [reflexivity |]. repeat constructor.
Qed.

(** X14. The interceptor's own code never throws and never changes the
    request, and the caller's [onProxyRes] hook, when there is one, runs
    exactly once and last: after the store writes and after a set-phase
    error, whatever the reply and the store do. *)
Theorem interceptor_always_hands_over (proxyRes : ProxyRes) (w : World St) :
  fst (intercept proxyRes w) = Returned tt /\
  w_req (snd (intercept proxyRes w)) = w_req w /\
  exists evs : list Event,
    w_log (snd (intercept proxyRes w))
    = (w_log w ++ evs ++ hook_log proxyConfig_onProxyRes)%list
    /\ ~ In UserOnProxyRes evs.
Proof.
  destruct (interceptor_returns queryCache globalTimeout proxyConfig_onProxyRes proxyRes w)
    as [Hret Hreq].
  split; [exact Hret |]. split; [exact Hreq |].
  rewrite interceptor_unfold. cbn zeta.
  destruct (is_Some_b (_hasCache (w_req w)) || truthy_str (_bodyHash (w_req w))).
  2:{ exists []. cbn. auto. }
  destruct (writeBack_log (_hasCache (w_req w)) (_bodyHash (w_req w)) proxyRes w)
    as [evs [Hlog Hw]].
  assert (~ In UserOnProxyRes evs) as Hno.
  { intros Hin. rewrite List.Forall_forall in Hw. specialize (Hw _ Hin). discriminate. }
  destruct (writeBack _ _ _ _ _ w) as [[[]|e] w1]; cbn [snd w_log] in *; rewrite Hlog.
  - exists evs. split; [rewrite app_assoc; reflexivity | exact Hno].
  - exists (evs ++ [ErrorOnSet e])%list. split; [rewrite <- !app_assoc; reflexivity |].
    intros Hin. apply in_app_or in Hin. destruct Hin as [Hin | [Hin | []]];
      [exact (Hno Hin) | discriminate].
Qed.

(** X15. A reply that cannot be decoded, or whose text [JSON.parse]
    rejects, is reported once as a set-phase error for a request with
    pending state of either kind; the store is not touched and the handler
    returns. *)
Theorem unreadable_reply_is_reported (proxyRes : ProxyRes) (w : World St) (e : Exn) :
  is_Some_b (_hasCache (w_req w)) || truthy_str (_bodyHash (w_req w)) = true ->
  decode proxyRes = Thrown e
  \/ (exists text, decode proxyRes = Returned text /\ JSON_parse (JStr text) = Thrown e) ->
  intercept proxyRes w =
  (Returned tt,
   mkWorld (w_req w) (w_store w)
           (w_log w ++ [ErrorOnSet e] ++ hook_log proxyConfig_onProxyRes)).
Proof.
  intros Hpending Hbad.
  rewrite interceptor_unfold. cbn zeta. rewrite Hpending.
  assert (writeBack queryCache globalTimeout (_hasCache (w_req w)) (_bodyHash (w_req w))
                    proxyRes w = (Thrown e, w)) as ->.
  { unfold writeBack. run.
    destruct Hbad as [-> | [text [-> ->]]]; reflexivity. }
  cbn [w_req w_store w_log]. rewrite <- app_assoc. reflexivity.
Qed.

(** X16. The hash is the digest of the bytes that go upstream: once the
    hash phase has let a request in, what [onProxyReq] writes to the
    upstream request hashes to [req._bodyHash]. *)
Theorem hash_is_digest_of_forwarded_body
        (now : string) (w : World St) (q : JSValue) (data : string) :
  prop (body (w_req w)) "query" = Returned q ->
  truthy q = true ->
  bypass cacheBypassHeader (w_req w) = false ->
  onProxyReq (w_req (snd (hashing now w))) = Some data ->
  _bodyHash (w_req (snd (hashing now w))) = Some (md5_hex data).
Proof.
  intros Hq Ht Hb. rewrite (hash_entered_request now w q Hq Ht Hb).
  unfold onProxyReq. cbn [body with_bodyHash _bodyHash].
  destruct (truthy (body (w_req w))); [| discriminate].
  destruct (negb (String.eqb (JSON_stringify (body (w_req w))) "")); [| discriminate].
  intros [= <-]. reflexivity.
Qed.

(** X17. Under the hash strategy the [request] field receives the bytes
    that went upstream: for a cacheable reply, the first store operation of
    the interceptor is the [hset] of [request] with what [onProxyReq] wrote. *)
Theorem stored_request_is_the_forwarded_body
        (proxyRes : ProxyRes) (w : World St) (text h data : string)
        (response payload_data : JSValue) :
  _bodyHash (w_req w) = Some h -> h <> "" ->
  decode proxyRes = Returned text ->
  JSON_parse (JStr text) = Returned response ->
  error_envelope response = false ->
  payload response = Some payload_data ->
  onProxyReq (w_req w) = Some data ->
  exists rest : list Event,
    w_log (snd (intercept proxyRes w))
    = (w_log w ++ CacheHset h "request" data globalTimeout :: rest)%list.
Proof.
  intros Hh Hne Hd Hp He Hpay Hsent.
  assert (data = JSON_stringify (body (w_req w))) as ->.
  { unfold onProxyReq in Hsent.
    destruct (truthy (body (w_req w))); [| discriminate].
    destruct (negb (String.eqb (JSON_stringify (body (w_req w))) "")); [| discriminate].
    injection Hsent as <-. reflexivity. }
  rewrite (interceptor_hash_write queryCache globalTimeout proxyConfig_onProxyRes
             proxyRes w text h response payload_data Hh Hne Hd Hp He Hpay).
  cbn [snd].
  destruct (hset h "request" _ _ (w_store w)) as [[[]|e] s1];
    [destruct (hset h "response" _ _ s1) as [[[]|e] s2] |];
    cbn [w_log]; eexists; reflexivity.
Qed.

(** X18. Stripping the directive changes the query and nothing else: on
    a miss every other property of the body (variables, operation name)
    reads as before, the method and the headers stay, and what goes
    upstream is the serialization of that body. *)
Theorem stripped_body_keeps_other_fields
        (w : World St) (q : JSValue) (doc nextQuery : Document)
        (variables : JSValue) (id : string) (timeout : Z) (v : JSValue) (s' : St) :
  prop (body (w_req w)) "query" = Returned q ->
  truthy q = true ->
  parse q = Returned doc ->
  hasDirectives [DIRECTIVE] doc = true ->
  removeCacheDirective doc = Returned nextQuery ->
  prop (body (w_req w)) "variables" = Returned variables ->
  calculateArguments doc variables cacheKeyModifier (w_req w) = Returned (id, timeout) ->
  get id (w_store w) = (Returned v, s') ->
  truthy v = false ->
  let req' := w_req (snd (directivePhase w)) in
  (forall name, name <> "query" -> prop (body req') name = prop (body (w_req w)) name)
  /\ method req' = method (w_req w)
  /\ headers req' = headers (w_req w)
  /\ (forall data, onProxyReq req' = Some data -> data = JSON_stringify (body req'))
  /\ prop (body req') "variables" = Returned variables.
Proof.
  intros Hq Ht Hp Hd Hr Hv Hc Hg Hf. cbn zeta.
  rewrite (directive_lookup_settled queryCache cacheKeyModifier w q doc nextQuery
             variables id timeout v s' Hq Ht Hp Hd Hr Hv Hc Hg), Hf.
  cbn [snd w_req with_body with_hasCache body method headers].
  destruct (truthy_query_is_object _ _ _ Hq Ht) as [kvs Hbody].
  assert (forall name, name <> "query" ->
                       prop (JObj (assign "query" (JStr (print nextQuery))
                                          (spread (body (w_req w))))) name
                       = prop (body (w_req w)) name) as Hkeep.
  { intros name Hname. rewrite Hbody. cbn [spread prop].
    rewrite assoc_assign_ne by (intros E; apply Hname; symmetry; exact E).
    reflexivity. }
  split; [exact Hkeep |]. split; [reflexivity |]. split; [reflexivity |]. split.
  - intros data. unfold onProxyReq. cbn [body truthy].
    destruct (negb (String.eqb _ "")); [| discriminate].
    intros [= <-]. reflexivity.
  - rewrite Hkeep by discriminate. exact Hv.
Qed.

(** X19. What the directive strategy writes is what a later hit serves:
    the interceptor stores [response.data] itself under the id, and when
    the store gives that value back for the same id the directive phase
    answers [{ data: response.data }]. *)
Theorem directive_write_then_hit
        (proxyRes : ProxyRes) (w : World St) (text id : string) (timeout : Z)
        (response data : JSValue) (s1 : St)
        (w2 : World St) (q : JSValue) (doc nextQuery : Document)
        (variables : JSValue) (timeout2 : Z) (s2 : St) :
  truthy_str (_bodyHash (w_req w)) = false ->
  _hasCache (w_req w) = Some (id, timeout) ->
  decode proxyRes = Returned text ->
  JSON_parse (JStr text) = Returned response ->
  error_envelope response = false ->
  payload response = Some data ->
  set id data timeout (w_store w) = (Returned tt, s1) ->
  w_store w2 = w_store (snd (intercept proxyRes w)) ->
  prop (body (w_req w2)) "query" = Returned q ->
  truthy q = true ->
  parse q = Returned doc ->
  hasDirectives [DIRECTIVE] doc = true ->
  removeCacheDirective doc = Returned nextQuery ->
  prop (body (w_req w2)) "variables" = Returned variables ->
  calculateArguments doc variables cacheKeyModifier (w_req w2) = Returned (id, timeout2) ->
  get id s1 = (Returned data, s2) ->
  writes (w_log (snd (intercept proxyRes w)))
  = (writes (w_log w) ++ [CacheSet id data timeout])%list
  /\ fst (directivePhase w2) = Returned (Responded (JObj [("data", data)])).
Proof.
  intros Hh Hc Hd Hp He Hpay Hset Hstore Hq Ht Hparse Hdir Hr Hv Hargs Hget.
  rewrite (interceptor_directive_write queryCache globalTimeout proxyConfig_onProxyRes
             proxyRes w text id timeout response data Hh Hc Hd Hp He Hpay) in *.
  rewrite Hset in *. cbn [snd w_store w_log] in *.
  split.
  - rewrite !writes_app, writes_hook, app_nil_r. reflexivity.
  - rewrite <- Hstore in Hget.
    rewrite (directive_lookup_settled queryCache cacheKeyModifier w2 q doc nextQuery
               variables id timeout2 data s2 Hq Ht Hparse Hdir Hr Hv Hargs Hget).
    destruct (payload_props _ _ He Hpay) as [_ [_ ->]]. reflexivity.
Qed.

End Handlers.

(** ** These results on the examples *)

Lemma directive_hit_serves_stored_value_witness :
  directiveMiddleware Caches.memory None (mkWorld Examples.annotated Examples.warm [])
  = (Returned (Responded (JObj [("data", JObj [("x", JNum 1)])])),
     mkWorld Examples.annotated Examples.warm
             [CacheGet "abc"; SetHeader CACHE_HEADER "true"]).
Proof.
  eapply (directive_hit_serves_stored_value (imports := runtime) Caches.memory None
            (mkWorld Examples.annotated Examples.warm [])
            (JStr Examples.annotated_query)).
  - reflexivity.
  - reflexivity.
  - vm_compute. reflexivity.
  - vm_compute. reflexivity.
  - vm_compute. reflexivity.
  - reflexivity.
  - vm_compute. reflexivity.
  - vm_compute. reflexivity.
  - reflexivity.
Defined.

Lemma directive_escapes_only_before_try_witness :
  exists q, prop (body Examples.malformed) "query" = Returned q
            /\ parse q = Thrown (GraphQLError "Syntax Error").
Proof.
  destruct (directive_escapes_only_before_try (imports := runtime) Caches.memory None
              (Examples.arriving Examples.malformed)
              (Examples.arriving Examples.malformed)
              (GraphQLError "Syntax Error"))
    as [_ [[[Hb | Hb] _] | [q [Hq [_ Hp]]]]].
  - vm_compute. reflexivity.
  - discriminate Hb.
  - discriminate Hb.
  - exists q. split; [exact Hq | exact Hp].
Defined.

Lemma caught_failure_leaves_request_untouched_witness :
  let w' := snd (directiveMiddleware Caches.unreachable None
                                     (Examples.cut_off Examples.annotated)) in
  w_req w' = Examples.annotated
  /\ exists evs : list Event,
      w_log w' = ([] ++ evs ++ [ErrorOnGet Caches.refused])%list
      /\ (evs = [] \/ exists id, evs = [CacheGet id]).
Proof.
  cbn zeta.
  edestruct (caught_failure_leaves_request_untouched (imports := runtime)
               Caches.unreachable None (Examples.cut_off Examples.annotated))
    as [_ [Hreq Hlog]].
  - reflexivity.
  - reflexivity.
  - vm_compute. reflexivity.
  - vm_compute. reflexivity.
  - vm_compute. reflexivity.
  - split; [exact Hreq | exact Hlog].
Defined.

Lemma bodyless_post_passes_with_warning_witness :
  let w := Examples.arriving Examples.bodyless_post in
  let warned := mkWorld Examples.bodyless_post Caches.empty [ConsoleWarn skip_warning] in
  directiveMiddleware Caches.memory None w = (Returned Next, warned)
  /\ hashMiddleware Caches.memory None 0 Examples.now w = (Returned Next, warned).
Proof.
  apply (bodyless_post_passes_with_warning (imports := runtime) Caches.memory None None 0
           Examples.now (Examples.arriving Examples.bodyless_post));
    reflexivity.
Defined.

Lemma body_without_query_passes_untouched_witness :
  let w := Examples.arriving Examples.query_less in
  directiveMiddleware Caches.memory None w = (Returned Next, w)
  /\ hashMiddleware Caches.memory None 0 Examples.now w = (Returned Next, w).
Proof.
  apply (body_without_query_passes_untouched (imports := runtime) Caches.memory None None 0
           Examples.now (Examples.arriving Examples.query_less) JUndefined).
  - reflexivity.
  - reflexivity.
  - left. reflexivity.
Defined.

Lemma unannotated_query_is_not_looked_up_witness :
  let w := Examples.arriving Examples.plain in
  directiveMiddleware Caches.memory None w = (Returned Next, w).
Proof.
  eapply (unannotated_query_is_not_looked_up (imports := runtime) Caches.memory None
            (Examples.arriving Examples.plain) (JStr "query { x(y: 1) }")).
  - reflexivity.
  - reflexivity.
  - vm_compute. reflexivity.
  - vm_compute. reflexivity.
Defined.

Lemma bypass_header_skips_hash_phase_witness :
  let w := mkWorld Examples.annotated_bypassing Examples.answered [] in
  hashMiddleware Caches.memory (Some "X-Proxy-No-Cache") 0 Examples.now w
  = (Returned Next, w).
Proof.
  apply (bypass_header_skips_hash_phase (imports := runtime) Caches.memory
           (Some "X-Proxy-No-Cache") 0 Examples.now
           (mkWorld Examples.annotated_bypassing Examples.answered [])
           (JStr Examples.annotated_query) "X-Proxy-No-Cache" "1").
  - reflexivity.
  - discriminate.
  - reflexivity.
  - discriminate.
  - reflexivity.
  - left. reflexivity.
Defined.

Lemma hash_hit_serves_stored_response_witness :
  fst (hashMiddleware Caches.memory None 0 Examples.now
                      (mkWorld Examples.plain Examples.answered []))
  = Returned (Responded (JObj [("data", JObj [("x", JNum 1)])])).
Proof.
  erewrite (hash_hit_serves_stored_response (imports := runtime) Caches.memory None 0
              Examples.now (mkWorld Examples.plain Examples.answered [])
              (JStr "query { x(y: 1) }")).
  - reflexivity.
  - reflexivity.
  - reflexivity.
  - reflexivity.
  - vm_compute. reflexivity.
  - vm_compute. reflexivity.
  - vm_compute. reflexivity.
  - reflexivity.
  - vm_compute. reflexivity.
Defined.

Lemma hash_miss_on_absent_response_witness :
  let w' := hashMiddleware Caches.memory None 0 Examples.now
                           (Examples.arriving Examples.plain) in
  fst w' = Returned Next
  /\ _bodyHash (w_req (snd w')) = Some Examples.plain_hash
  /\ w_log (snd w') = [CacheHset Examples.plain_hash "lastRequested" Examples.now 0;
                       CacheHget Examples.plain_hash].
Proof.
  cbn zeta.
  erewrite (hash_miss_on_absent_response (imports := runtime) Caches.memory None 0
              Examples.now (Examples.arriving Examples.plain)
              (JStr "query { x(y: 1) }")).
  - vm_compute. split; [| split]; reflexivity.
  - reflexivity.
  - reflexivity.
  - reflexivity.
  - vm_compute. reflexivity.
  - vm_compute. reflexivity.
  - right. right. exists JUndefined. split; reflexivity.
Defined.

Lemma unparsable_stored_response_throws_witness :
  fst (hashMiddleware Caches.memory None 0 Examples.now
                      (mkWorld Examples.plain Examples.garbled []))
  = Thrown (SyntaxError "Unexpected token in JSON").
Proof.
  erewrite (unparsable_stored_response_throws (imports := runtime) Caches.memory None 0
              Examples.now (mkWorld Examples.plain Examples.garbled [])
              (JStr "query { x(y: 1) }")).
  - reflexivity.
  - reflexivity.
  - reflexivity.
  - reflexivity.
  - vm_compute. reflexivity.
  - vm_compute. reflexivity.
  - vm_compute. reflexivity.
  - reflexivity.
  - vm_compute. reflexivity.
Defined.

Lemma hash_phase_escapes_witness :
  fst (hset (Cache := Caches.unreachable) Examples.plain_hash "lastRequested"
            Examples.now 0 tt)
  = Thrown Caches.refused.
Proof.
  edestruct (hash_phase_escapes (imports := runtime) Caches.unreachable None 0
               Examples.now (Examples.cut_off Examples.plain))
    as [[_ [[Hb | Hb] _]] | [_ [Hset | [s1 [Hset _]]]]].
  - vm_compute. reflexivity.
  - discriminate Hb.
  - discriminate Hb.
  - exact Hset.
  - discriminate Hset.
Defined.

Lemma unreadable_reply_is_reported_witness :
  onProxyRes Caches.memory 0 false "<html>Bad Gateway</html>"
             (Examples.arriving Examples.pending_directive)
  = (Returned tt,
     mkWorld Examples.pending_directive Caches.empty
             [ErrorOnSet (SyntaxError "Unexpected token in JSON")]).
Proof.
  apply (unreadable_reply_is_reported (imports := runtime) Caches.memory 0 false
           "<html>Bad Gateway</html>" (Examples.arriving Examples.pending_directive)).
  - reflexivity.
  - right. exists "<html>Bad Gateway</html>". split; [reflexivity |].
    vm_compute. reflexivity.
Defined.

Lemma hash_is_digest_of_forwarded_body_witness :
  let req' := w_req (snd (hashMiddleware Caches.memory None 0 Examples.now
                                         (Examples.arriving Examples.plain))) in
  _bodyHash req' = Some (md5_hex (JSON_stringify (body Examples.plain))).
Proof.
  apply (hash_is_digest_of_forwarded_body (imports := runtime) Caches.memory None 0
           Examples.now (Examples.arriving Examples.plain) (JStr "query { x(y: 1) }")).
  - reflexivity.
  - reflexivity.
  - reflexivity.
  - vm_compute. reflexivity.
Defined.

Lemma stored_request_is_the_forwarded_body_witness :
  exists rest : list Event,
    w_log (snd (onProxyRes Caches.memory 0 false (JSON.stringify Examples.success)
                           (Examples.arriving Examples.pending_both)))
    = ([] ++ CacheHset "a3761cb440d805dc395bf565f1551ab3" "request"
                       (JSON.stringify (body Examples.pending_both)) 0 :: rest)%list.
Proof.
  apply (stored_request_is_the_forwarded_body (imports := runtime) Caches.memory 0 false
           (JSON.stringify Examples.success) (Examples.arriving Examples.pending_both)
           (JSON.stringify Examples.success) "a3761cb440d805dc395bf565f1551ab3"
           (JSON.stringify (body Examples.pending_both))
           Examples.success (JObj [("x", JNum 1)])).
  - reflexivity.
  - discriminate.
  - reflexivity.
  - vm_compute. reflexivity.
  - reflexivity.
  - reflexivity.
  - vm_compute. reflexivity.
Defined.

Lemma stripped_body_keeps_other_fields_witness :
  let req' := w_req (snd (directiveMiddleware Caches.memory None
                                              (Examples.arriving Examples.annotated))) in
  method req' = "POST" /\ headers req' = []
  /\ prop (body req') "variables" = Returned JUndefined.
Proof.
  cbn zeta.
  edestruct (stripped_body_keeps_other_fields (imports := runtime) Caches.memory None
               (Examples.arriving Examples.annotated) (JStr Examples.annotated_query))
    as [_ [Hm [Hh [_ Hv]]]].
  - reflexivity.
  - reflexivity.
  - vm_compute. reflexivity.
  - vm_compute. reflexivity.
  - vm_compute. reflexivity.
  - reflexivity.
  - vm_compute. reflexivity.
  - vm_compute. reflexivity.
  - reflexivity.
  - split; [exact Hm |]. split; [exact Hh | exact Hv].
Defined.

Lemma directive_write_then_hit_witness :
  let after := snd (onProxyRes Caches.memory 0 false (JSON.stringify Examples.success)
                               (Examples.arriving Examples.pending_directive)) in
  writes (w_log after) = [CacheSet "abc" (JObj [("x", JNum 1)]) 60]
  /\ fst (directiveMiddleware Caches.memory None
                              (mkWorld Examples.annotated (w_store after) []))
     = Returned (Responded (JObj [("data", JObj [("x", JNum 1)])])).
Proof.
  cbn zeta.
  eapply (directive_write_then_hit (imports := runtime) Caches.memory None 0 false
            (JSON.stringify Examples.success)
            (Examples.arriving Examples.pending_directive)
            (JSON.stringify Examples.success) "abc" 60
            Examples.success (JObj [("x", JNum 1)]) Examples.warm
            (mkWorld Examples.annotated _ [])
            (JStr Examples.annotated_query)).
  - reflexivity.
  - reflexivity.
  - reflexivity.
  - vm_compute. reflexivity.
  - reflexivity.
  - reflexivity.
  - reflexivity.
  - reflexivity.
  - reflexivity.
  - reflexivity.
  - vm_compute. reflexivity.
  - vm_compute. reflexivity.
  - vm_compute. reflexivity.
  - reflexivity.
  - vm_compute. reflexivity.
  - vm_compute. reflexivity.
Defined.
